(** * AFWERX SBIR/STTR evaluator: rubric engine and scoring route

    A shallow embedding of the pure parts of
    [afwerx_sbir_sttr_evaluator_web_app_configurable.jsx] (the weighted
    score, the mandatory gate and its pass count, the configuration
    loader, the upload stub, the milestone list with its handlers and
    badge, the name of the exported file), of the [POST] handler of the
    scoring route, of [handleScore] of the project page that calls it,
    and of the intake form and the dashboard that share the local
    storage.

    Conventions of the embedding.
    - A number written in a configuration document, in the source or in
      a form field is the rational it denotes ([Q]).  The arithmetic of
      the engine is written once, over a class [Number] of number
      systems, and read in two of them: [exact] (rationals, equality
      [==]) and [binary64] (the numbers JavaScript computes with, every
      operation rounded to nearest, on primitive floats).  Binary64 is
      the arithmetic the program runs in.  A statement proved in exact
      arithmetic only says so, and comes with inputs on which binary64
      departs from it.
    - A JavaScript object used as a dictionary ([Record<string, T>]) is a
      [gmap string T] that holds its own properties.  Reading a key that
      is absent gives [undefined], unless it is a name that every object
      inherits ([constructor], [toString], [__proto__], ...), and
      writing under [__proto__] stores no key: [ratingOf] and [assign]
      spell this out where the program reads and writes such objects
      under keys taken from its input.
    - A JavaScript string is a [string]; one character stands for one
      code unit, so the strings of the embedding are those whose code
      units are below 256.
    - An optional field ([f?: T]) is an [option T]. *)

From Stdlib Require Import ZArith QArith Qround Lqa Lia List String Ascii.
From Stdlib Require Import Floats Uint63.
From Stdlib Require Import DecimalString DecimalNat.
From stdpp Require Import gmap strings list.

Local Open Scope string_scope.
#[local] Set Warnings "-abstract-large-number".

(** ** Numbers *)

Module Num.

(** What the engine asks of its numbers. *)
Class Number (N : Type) : Type := {
  (** the number a decimal numeral denotes *)
  lit : Q -> N;
  add : N -> N -> N;
  mul : N -> N -> N;
  (** [a <= b] *)
  leb : N -> N -> bool;
  Math_max : N -> N -> N;
  Math_min : N -> N -> N;
  (** truthiness: neither [0] nor [NaN] *)
  truthy : N -> bool;
  (** [+x.toFixed(1)] *)
  toFixed1 : N -> N
}.

(** *** Exact arithmetic *)

Module Exact.

Local Open Scope Q_scope.

Definition max (a b : Q) : Q := if Qle_bool a b then b else a.
Definition min (a b : Q) : Q := if Qle_bool a b then a else b.

Definition nonzero (q : Q) : bool := negb (Qeq_bool q 0).

(** [+x.toFixed(1)]: the decimal string with one fractional digit is
    the integer [n] for which [n / 10 - x] is closest to zero, the
    larger [n] on a tie, computed on [-x] with the sign put back when
    [x < 0]; the unary plus reads the string back as [n / 10]. *)
Definition toFixed1 (x : Q) : Q :=
  if Qle_bool 0 x
  then inject_Z (Qfloor (x * 10 + (1 # 2))) / 10
  else - (inject_Z (Qfloor ((- x) * 10 + (1 # 2))) / 10).

End Exact.

#[export] Instance exact : Number Q := {|
  lit := fun q => q;
  add := Qplus;
  mul := Qmult;
  leb := Qle_bool;
  Math_max := Exact.max;
  Math_min := Exact.min;
  truthy := Exact.nonzero;
  toFixed1 := Exact.toFixed1
|}.

(** Sum of a list of rationals. *)
Definition Qsum (l : list Q) : Q := fold_right Qplus 0%Q l.

(** *** Binary64 arithmetic *)

Module Binary64.

Local Open Scope float_scope.

(** The double nearest to [m * 2^e], the even one on a tie, an infinity
    beyond the range of the format. *)
Definition nearest (m e : Z) : float :=
  SF2Prim (binary_normalize prec emax m e false).

Definition of_Z (z : Z) : float := nearest z 0.

(** The double nearest to a rational, the even one on a tie: what
    [JSON.parse] and the reader of numeric literals give for the
    numeral.  The quotient is taken to 55 or more significant bits,
    followed by one bit that tells whether anything is left below them;
    so shortened it rounds as the rational does. *)
Definition of_Q (q : Q) : float :=
  let a := Z.abs (Qnum q) in
  let d := Zpos (Qden q) in
  let k := Z.max 0 (56 + Z.log2 d - Z.log2 a) in
  let (quo, rem) := Z.div_eucl (a * 2 ^ k) d in
  let m := (2 * quo + (if (rem =? 0)%Z then 0 else 1))%Z in
  let r := nearest m (- k - 1) in
  if (Qnum q <? 0)%Z then - r else r.

(** [Math.max] and [Math.min]: [NaN] if an argument is; [-0] below [+0]. *)
Definition max (a b : float) : float :=
  if is_nan a || is_nan b then nan
  else if a <? b then b
  else if b <? a then a
  else match classify a with NZero => b | _ => a end.

Definition min (a b : float) : float :=
  if is_nan a || is_nan b then nan
  else if a <? b then a
  else if b <? a then b
  else match classify a with NZero => a | _ => b end.

Definition nonzero (x : float) : bool := negb (PrimFloat.is_nan x || PrimFloat.is_zero x).

(** [+x.toFixed(1)].  A finite [x] is [m * 2^e] with [m < 2^53].  From
    [e = -3] on, neighbouring doubles are 0.125 or more apart and the
    decimal string, within 0.05 of [x], reads back as [x]; so do the
    strings of [NaN], of the infinities and of [x >= 1e21].  Below,
    the string is [n / 10] for the integer [n < 2^53] nearest to
    [10 * |x|] (the larger on a tie), read back as the nearest
    double. *)
Definition toFixed1 (x : float) : float :=
  match Prim2SF x with
  | S754_finite s m e =>
      if (-3 <=? e)%Z then x
      else
        let n := ((Zpos m * 20 + 2 ^ (- e)) / (2 ^ (- e) * 2))%Z in
        let r := of_Z n / 10 in
        if s then - r else r
  | S754_zero _ => 0
  | _ => x
  end.

End Binary64.

#[export] Instance binary64 : Number float := {|
  lit := Binary64.of_Q;
  add := PrimFloat.add;
  mul := PrimFloat.mul;
  leb := PrimFloat.leb;
  Math_max := Binary64.max;
  Math_min := Binary64.min;
  truthy := Binary64.nonzero;
  toFixed1 := Binary64.toFixed1
|}.

End Num.

(** ** Tactics *)

(** Case analysis on a comparison of two rationals. *)
Ltac Qle_case a b :=
  let E := fresh "E" in
  destruct (Qle_bool a b) eqn:E;
  [ apply Qle_bool_iff in E
  | let L := fresh "L" in
    assert (L : (b < a)%Q)
      by (apply Qnot_le_lt; let C := fresh "C" in
          intros C; apply Qle_bool_iff in C; congruence);
    clear E ].

(** Reading the operations of [Number] in exact arithmetic. *)
Ltac exact_arith :=
  cbn [Num.lit Num.add Num.mul Num.leb Num.Math_max Num.Math_min Num.truthy
       Num.toFixed1 Num.exact] in *.

(** ** Strings *)

Module Text.

(** [c.toLowerCase()] for one code unit below 256: the letters [A]-[Z]
    and the capitals from U+00C0 to U+00DE, the sign U+00D7 excepted,
    move up by 32; every other unit stays. *)
Definition lowerUnit (c : ascii) : ascii :=
  let n := nat_of_ascii c in
  if (Nat.leb 65 n && Nat.leb n 90)
     || (Nat.leb 192 n && Nat.leb n 222 && negb (Nat.eqb n 215))
  then ascii_of_nat (n + 32)
  else c.

(** [s.toLowerCase()] *)
Fixpoint toLowerCase (s : string) : string :=
  match s with
  | EmptyString => EmptyString
  | String c rest => String (lowerUnit c) (toLowerCase rest)
  end.

(** [s.includes(sub)]: [sub] starts at some position of [s]. *)
Fixpoint includes (s sub : string) : bool :=
  String.prefix sub s
  || match s with
     | EmptyString => false
     | String _ rest => includes rest sub
     end.

(** [s.endsWith(suffix)] *)
Definition endsWith (s suffix : string) : bool :=
  Nat.leb (String.length suffix) (String.length s)
  && (substring (String.length s - String.length suffix)
                (String.length suffix) s =? suffix)%string.

(** The code units below 256 that the class [\s] of a regular
    expression matches: tab, line feed, vertical tab, form feed,
    carriage return, space and the no-break space. *)
Definition isWhiteSpace (c : ascii) : bool :=
  let n := nat_of_ascii c in
  (Nat.leb 9 n && Nat.leb n 13) || Nat.eqb n 32 || Nat.eqb n 160.

(** [s.replace(/\s+/g, '_')], scanning from the left; [inRun] tells
    that the unit before belongs to a run already replaced. *)
Fixpoint replaceRuns (inRun : bool) (s : string) : string :=
  match s with
  | EmptyString => EmptyString
  | String c rest =>
      if isWhiteSpace c
      then (if inRun then replaceRuns true rest
            else String "_" (replaceRuns true rest))
      else String c (replaceRuns false rest)
  end.

Definition replaceWhiteSpace (s : string) : string := replaceRuns false s.

(** The decimal numeral of a natural number, as a template literal
    prints it. *)
Definition decimal (n : nat) : string := NilEmpty.string_of_uint (Nat.to_uint n).

End Text.

(** ** The rubric engine *)

Module Evaluator.

Import Num.

(** *** Types and configuration schema *)

Inductive Phase := PhaseI | PhaseII | D2P2.

Inductive LimitKind := KNumber | KMonths | KPages.

Record Limit := { kind : LimitKind; value : Q }.

Record MandatoryCriterion := {
  m_id : string;
  m_label : string;
  extractorKey : option string;
  limit : option Limit;
  required : bool
}.

Record RubricCriterion := {
  c_id : string;
  c_label : string;
  description : option string;
  c_weight : Q;
  howToExcellence : option string
}.

Record Category := {
  cat_id : string;
  cat_label : string;
  cat_weight : Q;
  criteria : list RubricCriterion
}.

Record MilestoneRule := { r_id : string; r_label : string; rule : string }.

Inductive Component := DAF | USSF | DoD.

Record Meta := {
  name : string;
  version : string;
  component : Component;
  openDate : option string;
  closeDate : option string
}.

Record PagePolicy := {
  techVolumeMaxPages : option Q;
  excludes : option (list string)
}.

Record References := { triUrl : option string; baaUrl : option string }.

Record SolicitationConfig := {
  meta : Meta;
  phasesSupported : list Phase;
  mandatory : list MandatoryCriterion;
  additional : option (list MandatoryCriterion);
  categories : list Category;
  milestoneRules : list MilestoneRule;
  pagePolicy : option PagePolicy;
  costCapUSD : option Q;
  maxPoPMonths : option Q;
  references : option References
}.

Record OUSDREArea := {
  a_id : string;
  a_label : string;
  keywords : option (list string)
}.

Record OUSDRECatalog := { o_version : string; areas : list OUSDREArea }.

(** The proposal metadata held in component state.  The three numeric
    fields are written by [Number(e.target.value)] and by the upload
    stub, so [typeof] of each is always ["number"]. *)
Record ProposalMeta := {
  title : string;
  company : string;
  topicNumber : string;
  cmSigned : bool;
  tvPages : Q;
  popMonths : Q;
  costTotal : Q;
  rcfPresent : bool;
  fwaPresent : bool;
  vol7Present : bool;
  powOk : bool
}.

Inductive Rating := Excellent | Good | Acceptable | Marginal | Poor.

Definition ratingOptions : list Rating :=
  [Excellent; Good; Acceptable; Marginal; Poor].

Record Milestone := {
  ms_id : string;
  ms_title : string;
  ms_description : string;
  rdCentric : bool;
  measurable : bool;
  ms_start : string;
  ms_end : string
}.

(** *** Utility helpers *)

Section Helpers.

Context {N : Type} {num : Number N}.

Definition clamp01 (n : N) : N := Math_max (lit 0) (Math_min (lit 1) n).

Definition ratingToScore (r : Rating) : N :=
  match r with
  | Excellent => lit 1
  | Good => lit 0.8
  | Acceptable => lit 0.6
  | Marginal => lit 0.4
  | Poor => lit 0.2
  end.

End Helpers.

(** *** Demo defaults *)

Definition mkMandatory (id label key : string) (lim : option Limit)
    (req : bool) : MandatoryCriterion :=
  {| m_id := id; m_label := label; extractorKey := Some key;
     limit := lim; required := req |}.

Definition mkCriterion (id label : string) (w : Q) (how : string)
    : RubricCriterion :=
  {| c_id := id; c_label := label; description := None; c_weight := w;
     howToExcellence := Some how |}.

Definition TECH : Category :=
  {| cat_id := "TECH"; cat_label := "Technical Merit"; cat_weight := 0.45;
     criteria := [
       mkCriterion "tech_problem" "Problem & Use Case Framing" 0.2
         "State a specific, quantifiable operational gap tied to mission outcomes; cite pages & end-user context.";
       mkCriterion "tech_approach" "Technical Approach Soundness & Merit" 0.35
         "Provide defendable architecture, methods, and test plan with measurable performance thresholds.";
       mkCriterion "tech_risk" "Level of Risk" 0.15
         "Identify top 3 risks with mitigation and exit criteria; show schedule & budget reserves.";
       mkCriterion "tech_innov" "Innovation & Differentiation" 0.15
         "Explain what’s novel vs. current alternatives; include benchmarks or prior data.";
       mkCriterion "team" "Team Qualifications" 0.15
         "Show PIs’ relevant prior art, clear roles, and key subs with availability letters."
     ] |}.

Definition DEF_NEED : Category :=
  {| cat_id := "DEF_NEED"; cat_label := "Defense Need"; cat_weight := 0.35;
     criteria := [
       mkCriterion "mission_impact" "Mission Impact & Urgency" 0.35
         "Quantify operational effect (time saved, probability of kill, availability↑). Tie to CONOPS.";
       mkCriterion "breadth" "Breadth of Applicability" 0.2
         "Map to multiple MAJCOMs/POs/platforms with similar needs.";
       mkCriterion "specificity" "Specificity of Need & Adequacy of Effort" 0.3
         "Show scope aligns with need & PoP; include CM details & path to OTAs or PALT.";
       mkCriterion "docs" "CM & Supporting Docs (Phase II only)" 0.15
         "Include signed CM; add letters/MOUs for adoption and funding pathways."
     ] |}.

Definition COMM : Category :=
  {| cat_id := "COMM"; cat_label := "Commercialization"; cat_weight := 0.2;
     criteria := [
       mkCriterion "market" "Market & Revenue Potential" 0.35
         "Show TAM/SAM/SOM with defensible bottoms-up revenue model.";
       mkCriterion "biz" "Business Plan" 0.3
         "Pricing, channels, margin structure, sales plan; showcase traction KPIs.";
       mkCriterion "interest" "Defense & Private Interest" 0.2
         "Document pilots, LOIs, OTA interest, matching funds prospects.";
       mkCriterion "docs_comm" "CM & Supporting Docs (Phase II)" 0.15
         "Attach commitment forms, cost share, transition letters."
     ] |}.

Definition DEFAULT_CONFIG : SolicitationConfig := {|
  meta := {| name := "AFX25.5 Release 8 (Amendment 1)";
             version := "2025-05-22";
             component := DAF;
             openDate := Some "2025-05-07";
             closeDate := Some "2025-06-05" |};
  phasesSupported := [PhaseI; PhaseII; D2P2];
  costCapUSD := Some 1250000%Q;
  maxPoPMonths := Some 21%Q;
  pagePolicy := Some {| techVolumeMaxPages := Some 15%Q;
                        excludes := Some ["Coversheet"; "Glossary"; "Table of Contents"] |};
  mandatory := [
    mkMandatory "costCap" "SBIR cost ≤ $1.25M" "cost_total"
      (Some {| kind := KNumber; value := 1250000 |}) true;
    mkMandatory "popCap" "Period of Performance ≤ 21 months" "pop_months"
      (Some {| kind := KMonths; value := 21 |}) true;
    mkMandatory "cmSigned" "Signed Customer Memorandum (end-user, customer, TPOC)"
      "cm_signed" None true;
    mkMandatory "pages" "Technical Volume ≤ 15 pages (excl. Cover/TOC/Glossary)"
      "tv_pages" (Some {| kind := KPages; value := 15 |}) true;
    mkMandatory "rcf" "Regulatory Compliance Form included" "rcf_present" None true
  ];
  additional := Some [
    mkMandatory "fwa" "FWA Training proof included (Vol 6)" "fwa_present" None false;
    mkMandatory "vol7" "Volume 7 Disclosures completed" "vol7_present" None false;
    mkMandatory "pow" "% of Work meets SBIR thresholds" "pow_ok" None false
  ];
  categories := [TECH; DEF_NEED; COMM];
  milestoneRules := [
    {| r_id := "rnd"; r_label := "R&D Centric";
       rule := "Milestones must be primarily R&D (not training/admin)." |};
    {| r_id := "measurable"; r_label := "Measurable Output";
       rule := "Each milestone includes acceptance criteria & testable deliverable." |};
    {| r_id := "timeline"; r_label := "Time-Boxed";
       rule := "Each milestone has start/end within PoP and clear dependencies." |}
  ];
  references := Some {| triUrl := Some "https://afwerx.com/divisions/ventures/open-topic/";
                        baaUrl := Some "https://www.dodsbirsttr.mil/" |}
|}.

Definition mkArea (id label : string) (kw : option (list string)) : OUSDREArea :=
  {| a_id := id; a_label := label; keywords := kw |}.

Definition DEFAULT_OUSDRE : OUSDRECatalog := {|
  o_version := "2023-03-21";
  areas := [
    mkArea "futureg" "FutureG" (Some ["5G"; "6G"; "ORAN"; "spectrum"]);
    mkArea "trusted_ai" "Trusted AI & Autonomy"
      (Some ["assurance"; "robustness"; "safety"; "V&V"]);
    mkArea "bio" "Biotechnology" None;
    mkArea "acsw" "Advanced Computing & Software" (Some ["HPC"; "compiler"; "runtime"]);
    mkArea "isc" "Integrated Sensing & Cyber" None;
    mkArea "de" "Directed Energy" None;
    mkArea "hyp" "Hypersonics" None;
    mkArea "me" "Microelectronics" None;
    mkArea "inss" "Integrated Network Systems-of-Systems" None;
    mkArea "quant" "Quantum Science" None;
    mkArea "space" "Space Technology" None;
    mkArea "energy" "Renewable Energy Generation & Storage" None;
    mkArea "mat" "Advanced Materials" None;
    mkArea "hmi" "Human-Machine Interfaces" None
  ]
|}.

(** The initial value of the [proposalMeta] state. *)
Definition initialProposalMeta : ProposalMeta := {|
  title := ""; company := ""; topicNumber := "";
  cmSigned := false; tvPages := 0; popMonths := 0; costTotal := 0;
  rcfPresent := false; fwaPresent := false; vol7Present := false;
  powOk := false
|}.

(** The metadata after the upload stub has seen a technical volume and
    a cost volume: [tvPages: 14], [costTotal: 1180000]. *)
Definition uploadedProposalMeta : ProposalMeta := {|
  title := ""; company := ""; topicNumber := "";
  cmSigned := false; tvPages := 14; popMonths := 0; costTotal := 1180000;
  rcfPresent := false; fwaPresent := false; vol7Present := false;
  powOk := false
|}.

(** *** Weighted score *)

(** The property names that a plain object inherits from
    [Object.prototype]. *)
Definition inheritedNames : list string :=
  ["constructor"; "hasOwnProperty"; "isPrototypeOf"; "propertyIsEnumerable";
   "toLocaleString"; "toString"; "valueOf"; "__proto__";
   "__defineGetter__"; "__defineSetter__"; "__lookupGetter__";
   "__lookupSetter__"].

Definition inherited (key : string) : bool :=
  existsb (String.eqb key) inheritedNames.

(** [ratings[c.id] || "Acceptable"].  [ratings] is a plain object: a
    stored rating is a non-empty string, hence truthy, and is the value
    read.  An absent key reads [undefined], which gives ["Acceptable"],
    unless the name is inherited: what [Object.prototype] holds under
    it, a function or an object, is truthy and is the value read.
    [None] stands for such a value, which is no rating. *)
Definition ratingOf (ratings : gmap string Rating) (c : RubricCriterion)
    : option Rating :=
  match ratings !! c_id c with
  | Some r => Some r
  | None => if inherited (c_id c) then None else Some Acceptable
  end.

(** The rating of a criterion whose read gives a rating. *)
Definition plainRating (ratings : gmap string Rating) (c : RubricCriterion)
    : Rating :=
  match ratings !! c_id c with
  | Some r => r
  | None => Acceptable
  end.

(** Whether the read for a criterion gives a rating, and whether every
    read of the score loop over a category list does. *)
Definition rated (ratings : gmap string Rating) (c : RubricCriterion) : bool :=
  match ratingOf ratings c with
  | Some _ => true
  | None => false
  end.

Definition allRated (ratings : gmap string Rating) (cats : list Category) : bool :=
  forallb (fun cat => forallb (rated ratings) (criteria cat)) cats.

(** The same in words of the ids: every criterion without a rating has
    an id that is not an inherited name. *)
Definition readsRatings (config : SolicitationConfig)
    (ratings : gmap string Rating) : Prop :=
  forall cat c, In cat (categories config) -> In c (criteria cat) ->
    ratings !! c_id c = None -> inherited (c_id c) = false.

Section Score.

Context {N : Type} {num : Number N}.

(** A tally is a number or [NaN]; [None] is the [NaN] that a read
    which is no rating brings in: [ratingToScore] returns [undefined]
    for it, [undefined * c.weight] is [NaN], and every later sum,
    product, [Math.min], [Math.max] and [toFixed] keeps [NaN]. *)

(** The inner loop: [catScore += ratingToScore(r) * c.weight]. *)
Definition catScore (ratings : gmap string Rating) (cat : Category)
    : option N :=
  fold_left
    (fun acc c =>
       match acc, ratingOf ratings c with
       | Some s, Some r =>
           Some (add s (mul (ratingToScore r) (lit (c_weight c))))
       | _, _ => None
       end)
    (criteria cat) (Some (lit 0)).

(** The outer loop: [total += clamp01(catScore) * cat.weight]. *)
Definition total (ratings : gmap string Rating) (cats : list Category)
    : option N :=
  fold_left
    (fun acc cat =>
       match acc, catScore ratings cat with
       | Some t, Some s =>
           Some (add t (mul (clamp01 s) (lit (cat_weight cat))))
       | _, _ => None
       end)
    cats (Some (lit 0)).

(** [+(total * 100).toFixed(1)] *)
Definition overallScore (config : SolicitationConfig)
    (ratings : gmap string Rating) : option N :=
  match total ratings (categories config) with
  | Some t => Some (toFixed1 (mul t (lit 100)))
  | None => None
  end.

(** The same loops where every read gives a rating. *)
Definition plainCatScore (ratings : gmap string Rating) (cat : Category) : N :=
  fold_left
    (fun acc c =>
       add acc (mul (ratingToScore (plainRating ratings c)) (lit (c_weight c))))
    (criteria cat) (lit 0).

Definition plainTotal (ratings : gmap string Rating) (cats : list Category) : N :=
  fold_left
    (fun acc cat =>
       add acc (mul (clamp01 (plainCatScore ratings cat)) (lit (cat_weight cat))))
    cats (lit 0).

Definition plainScore (config : SolicitationConfig)
    (ratings : gmap string Rating) : N :=
  toFixed1 (mul (plainTotal ratings (categories config)) (lit 100)).

End Score.

(** Two exact scores that are both [NaN], or equal numbers. *)
Definition sameScore (a b : option Q) : Prop :=
  match a, b with
  | Some x, Some y => (x == y)%Q
  | None, None => True
  | _, _ => False
  end.

(** The same configuration with another category list, and the same
    category with another criterion list. *)
Definition with_categories (cats : list Category) (config : SolicitationConfig)
    : SolicitationConfig :=
  {| meta := meta config; phasesSupported := phasesSupported config;
     mandatory := mandatory config; additional := additional config;
     categories := cats; milestoneRules := milestoneRules config;
     pagePolicy := pagePolicy config; costCapUSD := costCapUSD config;
     maxPoPMonths := maxPoPMonths config; references := references config |}.

Definition with_mandatory (ms : list MandatoryCriterion)
    (config : SolicitationConfig) : SolicitationConfig :=
  {| meta := meta config; phasesSupported := phasesSupported config;
     mandatory := ms; additional := additional config;
     categories := categories config; milestoneRules := milestoneRules config;
     pagePolicy := pagePolicy config; costCapUSD := costCapUSD config;
     maxPoPMonths := maxPoPMonths config; references := references config |}.

Definition with_criteria (cs : list RubricCriterion) (cat : Category) : Category :=
  {| cat_id := cat_id cat; cat_label := cat_label cat;
     cat_weight := cat_weight cat; criteria := cs |}.

(** *** The weighted score as the specification words it

    Section 4.2: for each category, the sum over its criteria of the
    score of the rating times the criterion weight, a missing rating
    counting 0.6; the subtotal clamped to [0,1] and multiplied by the
    category weight; the sum of these over the categories, times 100,
    rounded to one decimal. *)

Definition specRatingScore (r : option Rating) : Q :=
  match r with
  | Some Excellent => 1
  | Some Good => 0.8
  | Some Acceptable => 0.6
  | Some Marginal => 0.4
  | Some Poor => 0.2
  | None => 0.6
  end.

Definition specSubtotal (ratings : gmap string Rating) (cat : Category) : Q :=
  Qsum (map (fun c => specRatingScore (ratings !! c_id c) * c_weight c)%Q
            (criteria cat)).

Definition specClamp (x : Q) : Q :=
  if Qle_bool x 0 then 0%Q else if Qle_bool 1 x then 1%Q else x.

Definition specWeighted (ratings : gmap string Rating) (cats : list Category) : Q :=
  Qsum (map (fun cat => specClamp (specSubtotal ratings cat) * cat_weight cat)%Q
            cats).

(** [y] is [x] rounded to one decimal: a whole number of tenths, no
    further than half a tenth from [x]. *)
Definition rounded1 (x y : Q) : Prop :=
  exists n : Z, (y == inject_Z n / 10 /\ - (1 # 20) <= y - x <= 1 # 20)%Q.

(** A configuration whose category weights sum to 1.2, and ratings for
    its two criteria. *)
Definition twoHeavyCategories : SolicitationConfig :=
  with_categories
    [ {| cat_id := "A"; cat_label := "A"; cat_weight := 0.6;
         criteria := [mkCriterion "a" "a" 1 ""] |};
      {| cat_id := "B"; cat_label := "B"; cat_weight := 0.6;
         criteria := [mkCriterion "b" "b" 1 ""] |} ]
    DEFAULT_CONFIG.

Definition allExcellent : gmap string Rating :=
  {[ "a" := Excellent; "b" := Excellent ]}.

(** Three criteria whose weights add up to 0.1375, a configuration of
    one category of weight 1 holding given criteria, and ratings that
    make the three Excellent: the exact tally is 13.75. *)
Definition criterionA : RubricCriterion := mkCriterion "a" "a" 0.01 "".
Definition criterionB : RubricCriterion := mkCriterion "b" "b" 0.01 "".
Definition criterionC : RubricCriterion := mkCriterion "c" "c" 0.1175 "".

Definition oneCategory (cs : list RubricCriterion) : SolicitationConfig :=
  with_categories
    [ {| cat_id := "A"; cat_label := "A"; cat_weight := 1; criteria := cs |} ]
    DEFAULT_CONFIG.

Definition threeExcellent : gmap string Rating :=
  {[ "a" := Excellent; "b" := Excellent; "c" := Excellent ]}.

(** Every criterion of a configuration given the same rating. *)
Definition uniformRatings (config : SolicitationConfig) (r : Rating)
    : gmap string Rating :=
  list_to_map
    (map (fun c => (c_id c, r)) (flat_map criteria (categories config))).

(** One criterion of weight 0.06249999999999999 rated Poor: the exact
    tally times 100 is 1.2499999999999998. *)
Definition criterionD : RubricCriterion :=
  mkCriterion "d" "d" 0.06249999999999999 "".

Definition onePoor : gmap string Rating := {[ "d" := Poor ]}.

(** A criterion whose id is a name that every object inherits. *)
Definition criterionToString : RubricCriterion :=
  mkCriterion "toString" "Text form" 1 "".

(** Two criteria whose weights, 1e309 and -1e309 in the document, lie
    beyond the finite doubles: [JSON.parse] reads them as [Infinity]
    and [-Infinity]. *)
Definition criterionHuge : RubricCriterion := mkCriterion "a" "a" 1e309 "".
Definition criterionHugeNegative : RubricCriterion :=
  mkCriterion "b" "b" (-1e309) "".

(** *** Mandatory gate *)

(** The five ids the gate tests for. *)
Definition recognizedIds : list string :=
  ["costCap"; "popCap"; "pages"; "cmSigned"; "rcf"].

(** [x === false] for the result of reading a key of the map. *)
Definition is_false (o : option bool) : bool :=
  match o with
  | Some false => true
  | _ => false
  end.

Section Gate.

Context {N : Type} {num : Number N}.

(** Truthiness of an optional cap: [undefined] is falsy. *)
Definition truthy_cap (cap : option Q) : bool :=
  match cap with
  | Some c => truthy (lit c)
  | None => false
  end.

(** [x <= cap] where [cap] may be [undefined]: a comparison with
    [undefined] is false. *)
Definition leq_cap (x : Q) (cap : option Q) : bool :=
  match cap with
  | Some c => leb (lit x) (lit c)
  | None => false
  end.

(** One iteration of the loop body of [mandatoryResults]: the value
    stored under [m.id].  The five tests are run in sequence on the
    same [ok], as in the source; [typeof ... === "number"] holds of
    the three numeric fields of [ProposalMeta]. *)
Definition gate (config : SolicitationConfig) (proposalMeta : ProposalMeta)
    (m : MandatoryCriterion) : bool :=
  let ok := true in
  let ok :=
    if (m_id m =? "costCap")%string && truthy_cap (costCapUSD config)
    then leq_cap (costTotal proposalMeta) (costCapUSD config) else ok in
  let ok :=
    if (m_id m =? "popCap")%string && truthy_cap (maxPoPMonths config)
    then leq_cap (popMonths proposalMeta) (maxPoPMonths config) else ok in
  let ok :=
    if (m_id m =? "pages")%string
       && truthy_cap (pagePolicy config ≫= techVolumeMaxPages)
    then leq_cap (tvPages proposalMeta)
                 (pagePolicy config ≫= techVolumeMaxPages)
    else ok in
  let ok := if (m_id m =? "cmSigned")%string then cmSigned proposalMeta else ok in
  let ok := if (m_id m =? "rcf")%string then rcfPresent proposalMeta else ok in
  ok.

(** [map[key] = value] on the plain object [map].  Under the name
    [__proto__] the assignment reaches the setter that
    [Object.prototype] carries, which ignores a value that is no object:
    no key is stored.  Under any other name an own key is written. *)
Definition assign (key : string) (value : bool) (map : gmap string bool)
    : gmap string bool :=
  if (key =? "__proto__")%string then map else <[ key := value ]> map.

(** [for (const m of config.mandatory) { ...; map[m.id] = !!ok; }] *)
Definition mandatoryResults (config : SolicitationConfig)
    (proposalMeta : ProposalMeta) : gmap string bool :=
  fold_left
    (fun map m => assign (m_id m) (gate config proposalMeta m) map)
    (mandatory config) ∅.

(** [config.mandatory.some((m) => m.required && mandatoryResults[m.id] === false)];
    a read of the name [__proto__], which the map never holds, gives an
    object, which is not [false]. *)
Definition disqualified (config : SolicitationConfig)
    (proposalMeta : ProposalMeta) : bool :=
  existsb
    (fun m => required m
              && is_false (mandatoryResults config proposalMeta !! m_id m))
    (mandatory config).

End Gate.

Section PassCount.

Context {N : Type} {num : Number N}.

(** [Object.values(mandatoryResults).filter(Boolean).length]: the
    number of keys of the result map that hold [true].  The count does
    not depend on the order in which the values are listed. *)
Definition mandatoryPassCount (config : SolicitationConfig)
    (proposalMeta : ProposalMeta) : nat :=
  length (List.filter (fun ok : bool => ok)
            (map snd (map_to_list (mandatoryResults config proposalMeta)))).

End PassCount.

(** [config.mandatory.length] *)
Definition mandatoryTotal (config : SolicitationConfig) : nat :=
  length (mandatory config).

(** A required criterion whose id is the name [__proto__], and the
    default configuration with this one mandatory criterion. *)
Definition protoCriterion : MandatoryCriterion :=
  mkMandatory "__proto__" "Prototype statement included" "proto_present"
    None true.

Definition protoMandatory : SolicitationConfig :=
  with_mandatory [protoCriterion] DEFAULT_CONFIG.

(** *** Milestone badge *)

(** [(m.rdCentric && m.measurable) ? "Strong" : "Needs Work"] *)
Definition milestoneBadge (m : Milestone) : string :=
  if rdCentric m && measurable m then "Strong" else "Needs Work".

(** *** Component state and its handlers *)

(** The state of the component, one field per [useState], and the
    messages shown by [alert]. *)
Record AppState := {
  phase : Phase;
  configText : string;
  ousdreText : string;
  config : SolicitationConfig;
  ousdre : OUSDRECatalog;
  proposalMeta : ProposalMeta;
  ratings : gmap string Rating;
  milestones : list Milestone;
  alerts : list string
}.

Definition setConfig (c : SolicitationConfig) (st : AppState) : AppState :=
  {| phase := phase st; configText := configText st; ousdreText := ousdreText st;
     config := c; ousdre := ousdre st; proposalMeta := proposalMeta st;
     ratings := ratings st; milestones := milestones st; alerts := alerts st |}.

Definition setOusdRe (o : OUSDRECatalog) (st : AppState) : AppState :=
  {| phase := phase st; configText := configText st; ousdreText := ousdreText st;
     config := config st; ousdre := o; proposalMeta := proposalMeta st;
     ratings := ratings st; milestones := milestones st; alerts := alerts st |}.

Definition setRatings (r : gmap string Rating) (st : AppState) : AppState :=
  {| phase := phase st; configText := configText st; ousdreText := ousdreText st;
     config := config st; ousdre := ousdre st; proposalMeta := proposalMeta st;
     ratings := r; milestones := milestones st; alerts := alerts st |}.

Definition alert (msg : string) (st : AppState) : AppState :=
  {| phase := phase st; configText := configText st; ousdreText := ousdreText st;
     config := config st; ousdre := ousdre st; proposalMeta := proposalMeta st;
     ratings := ratings st; milestones := milestones st;
     alerts := (alerts st ++ [msg])%list |}.

(** The two milestones of the initial state. *)
Definition firstMilestone : Milestone :=
  {| ms_id := "m1"; ms_title := "M1: Architecture & Test Plan";
     ms_description := "Baseline architecture, verification plan, KPIs.";
     rdCentric := true; measurable := true; ms_start := ""; ms_end := "" |}.

Definition secondMilestone : Milestone :=
  {| ms_id := "m2"; ms_title := "M2: Prototype V1";
     ms_description := "Alpha prototype with core feature set.";
     rdCentric := true; measurable := true; ms_start := ""; ms_end := "" |}.

(** The state on first render, the two text areas holding the given
    texts ([JSON.stringify] of the defaults in the source). *)
Definition initialState (configText ousdreText : string) : AppState :=
  {| phase := D2P2; configText := configText; ousdreText := ousdreText;
     config := DEFAULT_CONFIG; ousdre := DEFAULT_OUSDRE;
     proposalMeta := initialProposalMeta; ratings := ∅;
     milestones := [firstMilestone; secondMilestone]; alerts := [] |}.

Section LoadConfig.

(** [JSON.parse], read at the types the source casts its result to:
    [None] stands for the [SyntaxError] it throws. *)
Variable JSON_parse_config : string -> option SolicitationConfig.
Variable JSON_parse_catalog : string -> option OUSDRECatalog.

(** [try { setConfig(JSON.parse(configText)) } catch (e) { alert(...) }] *)
Definition handleLoadConfig (st : AppState) : AppState :=
  match JSON_parse_config (configText st) with
  | Some parsed => setConfig parsed st
  | None => alert "Invalid solicitation JSON" st
  end.

Definition handleLoadOUSDRE (st : AppState) : AppState :=
  match JSON_parse_catalog (ousdreText st) with
  | Some parsed => setOusdRe parsed st
  | None => alert "Invalid OUSD(R&E) JSON" st
  end.

End LoadConfig.

(** [setRatings((r) => ({ ...r, [id]: val }))] *)
Definition setRating (id : string) (val : Rating) (st : AppState) : AppState :=
  setRatings (<[ id := val ]> (ratings st)) st.

(** [setProposalMeta((s) => ...)] *)
Definition setProposalMeta (f : ProposalMeta -> ProposalMeta) (st : AppState)
    : AppState :=
  {| phase := phase st; configText := configText st; ousdreText := ousdreText st;
     config := config st; ousdre := ousdre st; proposalMeta := f (proposalMeta st);
     ratings := ratings st; milestones := milestones st; alerts := alerts st |}.

(** [{ ...s, tvPages: n }] and [{ ...s, costTotal: n }] *)
Definition with_tvPages (n : Q) (s : ProposalMeta) : ProposalMeta :=
  {| title := title s; company := company s; topicNumber := topicNumber s;
     cmSigned := cmSigned s; tvPages := n; popMonths := popMonths s;
     costTotal := costTotal s; rcfPresent := rcfPresent s;
     fwaPresent := fwaPresent s; vol7Present := vol7Present s; powOk := powOk s |}.

Definition with_costTotal (n : Q) (s : ProposalMeta) : ProposalMeta :=
  {| title := title s; company := company s; topicNumber := topicNumber s;
     cmSigned := cmSigned s; tvPages := tvPages s; popMonths := popMonths s;
     costTotal := n; rcfPresent := rcfPresent s;
     fwaPresent := fwaPresent s; vol7Present := vol7Present s; powOk := powOk s |}.

(** What the upload stub reads of a file. *)
Record File := { f_name : string }.

(** The two tests of the upload stub on the lower-cased file name. *)
Definition looksLikeTechVolume (name : string) : bool :=
  Text.includes name "tech" || Text.includes name "volume2"
  || Text.endsWith name ".pdf".

Definition looksLikeCostVolume (name : string) : bool :=
  Text.includes name "cost" || Text.includes name "volume3"
  || Text.endsWith name ".xlsx".

(** The same tests, read on the file name as the user sees it: the
    name holds a word somewhere, or ends in an extension, in any
    letter case. *)
Definition mentions (name word : string) : Prop :=
  exists a k b, name = a ++ k ++ b /\ Text.toLowerCase k = word.

Definition hasExtension (name ext : string) : Prop :=
  exists a e, name = a ++ e /\ Text.toLowerCase e = ext.

Definition namedTechVolume (name : string) : Prop :=
  mentions name "tech" \/ mentions name "volume2" \/ hasExtension name ".pdf".

Definition namedCostVolume (name : string) : Prop :=
  mentions name "cost" \/ mentions name "volume3" \/ hasExtension name ".xlsx".

(** [handleFileChange]; [files] is [e.target.files], [null] when the
    input holds no file list, and [files?.[0]] its first entry. *)
Definition handleFileChange (files : option (list File)) (st : AppState)
    : AppState :=
  match files ≫= head with
  | None => st
  | Some file =>
      let name := Text.toLowerCase (f_name file) in
      let st :=
        if looksLikeTechVolume name
        then setProposalMeta (with_tvPages 14) st else st in
      let st :=
        if looksLikeCostVolume name
        then setProposalMeta (with_costTotal 1180000) st else st in
      st
  end.

(** [setMilestones((ms) => ...)] *)
Definition setMilestones (f : list Milestone -> list Milestone) (st : AppState)
    : AppState :=
  {| phase := phase st; configText := configText st; ousdreText := ousdreText st;
     config := config st; ousdre := ousdre st; proposalMeta := proposalMeta st;
     ratings := ratings st; milestones := f (milestones st); alerts := alerts st |}.

(** The milestone that [addMilestone] appends to a list of [n]. *)
Definition newMilestone (n : nat) : Milestone :=
  {| ms_id := "m" ++ Text.decimal (n + 1);
     ms_title := "M" ++ Text.decimal (n + 1) ++ ": New Milestone";
     ms_description := ""; rdCentric := true; measurable := false;
     ms_start := ""; ms_end := "" |}.

Definition addMilestone (st : AppState) : AppState :=
  setMilestones (fun ms => (ms ++ [newMilestone (length ms)])%list) st.

(** [ms.map(x => x.id === id ? f(x) : x)], the shape of the six edit
    handlers of a milestone card. *)
Definition editWhere (id : string) (f : Milestone -> Milestone)
    (ms : list Milestone) : list Milestone :=
  map (fun x => if (ms_id x =? id)%string then f x else x) ms.

Definition with_title (v : string) (x : Milestone) : Milestone :=
  {| ms_id := ms_id x; ms_title := v; ms_description := ms_description x;
     rdCentric := rdCentric x; measurable := measurable x;
     ms_start := ms_start x; ms_end := ms_end x |}.

Definition with_start (v : string) (x : Milestone) : Milestone :=
  {| ms_id := ms_id x; ms_title := ms_title x; ms_description := ms_description x;
     rdCentric := rdCentric x; measurable := measurable x;
     ms_start := v; ms_end := ms_end x |}.

Definition with_description (v : string) (x : Milestone) : Milestone :=
  {| ms_id := ms_id x; ms_title := ms_title x; ms_description := v;
     rdCentric := rdCentric x; measurable := measurable x;
     ms_start := ms_start x; ms_end := ms_end x |}.

Definition with_end (v : string) (x : Milestone) : Milestone :=
  {| ms_id := ms_id x; ms_title := ms_title x; ms_description := ms_description x;
     rdCentric := rdCentric x; measurable := measurable x;
     ms_start := ms_start x; ms_end := v |}.

Definition with_rdCentric (v : bool) (x : Milestone) : Milestone :=
  {| ms_id := ms_id x; ms_title := ms_title x; ms_description := ms_description x;
     rdCentric := v; measurable := measurable x;
     ms_start := ms_start x; ms_end := ms_end x |}.

Definition with_measurable (v : bool) (x : Milestone) : Milestone :=
  {| ms_id := ms_id x; ms_title := ms_title x; ms_description := ms_description x;
     rdCentric := rdCentric x; measurable := v;
     ms_start := ms_start x; ms_end := ms_end x |}.

(** The [onChange] and [onCheckedChange] handlers of the card of the
    milestone [m]; [v] is [e.target.value], or [Boolean(v)] for the two
    checkboxes. *)
Definition onTitleChange (m : Milestone) (v : string) : AppState -> AppState :=
  setMilestones (editWhere (ms_id m) (with_title v)).

Definition onStartChange (m : Milestone) (v : string) : AppState -> AppState :=
  setMilestones (editWhere (ms_id m) (with_start v)).

Definition onDescriptionChange (m : Milestone) (v : string) : AppState -> AppState :=
  setMilestones (editWhere (ms_id m) (with_description v)).

Definition onEndChange (m : Milestone) (v : string) : AppState -> AppState :=
  setMilestones (editWhere (ms_id m) (with_end v)).

Definition onRdCentricChange (m : Milestone) (v : bool) : AppState -> AppState :=
  setMilestones (editWhere (ms_id m) (with_rdCentric v)).

Definition onMeasurableChange (m : Milestone) (v : bool) : AppState -> AppState :=
  setMilestones (editWhere (ms_id m) (with_measurable v)).

(** What the user can do to the milestone list: add a milestone, or
    edit the card of a milestone that is on display. *)
Inductive MilestoneAction :=
| AddMilestone
| EditTitle (m : Milestone) (v : string)
| EditStart (m : Milestone) (v : string)
| EditDescription (m : Milestone) (v : string)
| EditEnd (m : Milestone) (v : string)
| EditRdCentric (m : Milestone) (v : bool)
| EditMeasurable (m : Milestone) (v : bool).

Definition runMilestoneAction (a : MilestoneAction) : AppState -> AppState :=
  match a with
  | AddMilestone => addMilestone
  | EditTitle m v => onTitleChange m v
  | EditStart m v => onStartChange m v
  | EditDescription m v => onDescriptionChange m v
  | EditEnd m v => onEndChange m v
  | EditRdCentric m v => onRdCentricChange m v
  | EditMeasurable m v => onMeasurableChange m v
  end.

(** The remaining setters of the component state. *)
Definition setPhase (v : Phase) (st : AppState) : AppState :=
  {| phase := v; configText := configText st; ousdreText := ousdreText st;
     config := config st; ousdre := ousdre st; proposalMeta := proposalMeta st;
     ratings := ratings st; milestones := milestones st; alerts := alerts st |}.

Definition setConfigText (v : string) (st : AppState) : AppState :=
  {| phase := phase st; configText := v; ousdreText := ousdreText st;
     config := config st; ousdre := ousdre st; proposalMeta := proposalMeta st;
     ratings := ratings st; milestones := milestones st; alerts := alerts st |}.

Definition setOusdReText (v : string) (st : AppState) : AppState :=
  {| phase := phase st; configText := configText st; ousdreText := v;
     config := config st; ousdre := ousdre st; proposalMeta := proposalMeta st;
     ratings := ratings st; milestones := milestones st; alerts := alerts st |}.

(** [{ ...proposalMeta, field: v }] for the other fields of the set-up
    form. *)
Definition with_company (v : string) (s : ProposalMeta) : ProposalMeta :=
  {| title := title s; company := v; topicNumber := topicNumber s;
     cmSigned := cmSigned s; tvPages := tvPages s; popMonths := popMonths s;
     costTotal := costTotal s; rcfPresent := rcfPresent s;
     fwaPresent := fwaPresent s; vol7Present := vol7Present s;
     powOk := powOk s |}.

Definition with_proposalTitle (v : string) (s : ProposalMeta) : ProposalMeta :=
  {| title := v; company := company s; topicNumber := topicNumber s;
     cmSigned := cmSigned s; tvPages := tvPages s; popMonths := popMonths s;
     costTotal := costTotal s; rcfPresent := rcfPresent s;
     fwaPresent := fwaPresent s; vol7Present := vol7Present s;
     powOk := powOk s |}.

Definition with_topicNumber (v : string) (s : ProposalMeta) : ProposalMeta :=
  {| title := title s; company := company s; topicNumber := v;
     cmSigned := cmSigned s; tvPages := tvPages s; popMonths := popMonths s;
     costTotal := costTotal s; rcfPresent := rcfPresent s;
     fwaPresent := fwaPresent s; vol7Present := vol7Present s;
     powOk := powOk s |}.

Definition with_popMonths (v : Q) (s : ProposalMeta) : ProposalMeta :=
  {| title := title s; company := company s; topicNumber := topicNumber s;
     cmSigned := cmSigned s; tvPages := tvPages s; popMonths := v;
     costTotal := costTotal s; rcfPresent := rcfPresent s;
     fwaPresent := fwaPresent s; vol7Present := vol7Present s;
     powOk := powOk s |}.

Definition with_cmSigned (v : bool) (s : ProposalMeta) : ProposalMeta :=
  {| title := title s; company := company s; topicNumber := topicNumber s;
     cmSigned := v; tvPages := tvPages s; popMonths := popMonths s;
     costTotal := costTotal s; rcfPresent := rcfPresent s;
     fwaPresent := fwaPresent s; vol7Present := vol7Present s;
     powOk := powOk s |}.

Definition with_rcfPresent (v : bool) (s : ProposalMeta) : ProposalMeta :=
  {| title := title s; company := company s; topicNumber := topicNumber s;
     cmSigned := cmSigned s; tvPages := tvPages s; popMonths := popMonths s;
     costTotal := costTotal s; rcfPresent := v; fwaPresent := fwaPresent s;
     vol7Present := vol7Present s; powOk := powOk s |}.

Definition with_fwaPresent (v : bool) (s : ProposalMeta) : ProposalMeta :=
  {| title := title s; company := company s; topicNumber := topicNumber s;
     cmSigned := cmSigned s; tvPages := tvPages s; popMonths := popMonths s;
     costTotal := costTotal s; rcfPresent := rcfPresent s; fwaPresent := v;
     vol7Present := vol7Present s; powOk := powOk s |}.

Definition with_vol7Present (v : bool) (s : ProposalMeta) : ProposalMeta :=
  {| title := title s; company := company s; topicNumber := topicNumber s;
     cmSigned := cmSigned s; tvPages := tvPages s; popMonths := popMonths s;
     costTotal := costTotal s; rcfPresent := rcfPresent s;
     fwaPresent := fwaPresent s; vol7Present := v; powOk := powOk s |}.

Definition with_powOk (v : bool) (s : ProposalMeta) : ProposalMeta :=
  {| title := title s; company := company s; topicNumber := topicNumber s;
     cmSigned := cmSigned s; tvPages := tvPages s; popMonths := popMonths s;
     costTotal := costTotal s; rcfPresent := rcfPresent s;
     fwaPresent := fwaPresent s; vol7Present := vol7Present s; powOk := v |}.

(** What the user can do on the page.  A field of the set-up form
    carries the value its handler stores: [e.target.value],
    [Number(e.target.value)] or [Boolean(v)]. *)
Inductive Action :=
| SelectPhase (v : Phase)
| EditConfigText (v : string)
| EditOusdreText (v : string)
| ApplyConfig
| ApplyOUSDRE
| ChooseFile (files : option (list File))
| EnterCompany (v : string)
| EnterTitle (v : string)
| EnterTopicNumber (v : string)
| EnterCostTotal (v : Q)
| EnterPopMonths (v : Q)
| EnterTvPages (v : Q)
| CheckCmSigned (v : bool)
| CheckRcfPresent (v : bool)
| CheckFwaPresent (v : bool)
| CheckVol7Present (v : bool)
| CheckPowOk (v : bool)
| Rate (id : string) (val : Rating)
| OnMilestones (a : MilestoneAction).

Section Session.

Variable JSON_parse_config : string -> option SolicitationConfig.
Variable JSON_parse_catalog : string -> option OUSDRECatalog.

(** The handler that each action runs. *)
Definition runAction (a : Action) : AppState -> AppState :=
  match a with
  | SelectPhase v => setPhase v
  | EditConfigText v => setConfigText v
  | EditOusdreText v => setOusdReText v
  | ApplyConfig => handleLoadConfig JSON_parse_config
  | ApplyOUSDRE => handleLoadOUSDRE JSON_parse_catalog
  | ChooseFile files => handleFileChange files
  | EnterCompany v => setProposalMeta (with_company v)
  | EnterTitle v => setProposalMeta (with_proposalTitle v)
  | EnterTopicNumber v => setProposalMeta (with_topicNumber v)
  | EnterCostTotal v => setProposalMeta (with_costTotal v)
  | EnterPopMonths v => setProposalMeta (with_popMonths v)
  | EnterTvPages v => setProposalMeta (with_tvPages v)
  | CheckCmSigned v => setProposalMeta (with_cmSigned v)
  | CheckRcfPresent v => setProposalMeta (with_rcfPresent v)
  | CheckFwaPresent v => setProposalMeta (with_fwaPresent v)
  | CheckVol7Present v => setProposalMeta (with_vol7Present v)
  | CheckPowOk v => setProposalMeta (with_powOk v)
  | Rate id val => setRating id val
  | OnMilestones a => runMilestoneAction a
  end.

(** The state after a sequence of actions, the first of the list run
    first. *)
Definition run (acts : list Action) (st : AppState) : AppState :=
  fold_left (fun s a => runAction a s) acts st.

End Session.

(** The name of the exported snapshot:
    [`readiness_${(proposalMeta.title || "proposal").replace(/\s+/g, '_')}.json`] *)
Definition exportFileName (proposalMeta : ProposalMeta) : string :=
  "readiness_"
  ++ Text.replaceWhiteSpace
       (if (title proposalMeta =? "")%string then "proposal" else title proposalMeta)
  ++ ".json".

(** The ids [m1], ..., [mn]. *)
Definition numberedIds (n : nat) : list string :=
  map (fun i => "m" ++ Text.decimal i) (seq 1 n).

(** A milestone list whose ids are [m1], ..., [mn], in this order. *)
Definition numbered (ms : list Milestone) : Prop :=
  map ms_id ms = numberedIds (length ms).

(** A cap that is left out of the configuration, or written as 0. *)
Definition noCap (cap : option Q) : Prop := cap = None \/ cap = Some 0%Q.

(** The same configuration with other caps, and the same criterion
    with another [required] flag and no limit. *)
Definition with_caps (cost pop pages : option Q) (config : SolicitationConfig)
    : SolicitationConfig :=
  {| meta := meta config; phasesSupported := phasesSupported config;
     mandatory := mandatory config; additional := additional config;
     categories := categories config; milestoneRules := milestoneRules config;
     pagePolicy := Some {| techVolumeMaxPages := pages; excludes := None |};
     costCapUSD := cost; maxPoPMonths := pop; references := references config |}.

(** Metadata with a cost, a duration and a page count far above the
    caps of the default configuration. *)
Definition oversizedProposalMeta : ProposalMeta := {|
  title := ""; company := ""; topicNumber := "";
  cmSigned := false; tvPages := 400; popMonths := 60; costTotal := 9000000;
  rcfPresent := false; fwaPresent := false; vol7Present := false;
  powOk := false
|}.

Definition optional_unlimited (m : MandatoryCriterion) : MandatoryCriterion :=
  {| m_id := m_id m; m_label := m_label m; extractorKey := extractorKey m;
     limit := None; required := false |}.

(** A stand-in for [JSON.parse] that knows one document, the text of
    [twoHeavyCategories], and rejects every other text. *)
Definition twoHeavyCategoriesText : string := "{ ...twoHeavyCategories... }".

Definition parseKnownDocument (text : string) : option SolicitationConfig :=
  if (text =? twoHeavyCategoriesText)%string then Some twoHeavyCategories else None.

End Evaluator.

(** ** The scoring route *)

Module ScoreDemo.

Import Num.

(** *** Values *)

(** A parsed JSON document.  [JObj] lists the own properties of the
    object, each key once. *)
#[local] Unset Elimination Schemes.
Inductive json :=
| JNull
| JBool (b : bool)
| JNum (q : Q)
| JStr (s : string)
| JArr (items : list json)
| JObj (props : list (string * json)).
#[local] Set Elimination Schemes.

(** Reading a property of a parsed object: [undefined] ([None]) when
    absent.  The keys read below, [text] and [items], are not names
    that an object inherits. *)
Fixpoint getProp (k : string) (props : list (string * json)) : option json :=
  match props with
  | [] => None
  | (k', v) :: rest => if (k' =? k)%string then Some v else getProp k rest
  end.

(** What the handler reads of a thrown value: [e?.message]. *)
Record thrown := { message : option string }.

Definition TypeError (msg : string) : thrown := {| message := Some msg |}.

(** How an evaluation ends. *)
Inductive completion (A : Type) :=
| Normal (a : A)
| Throw (e : thrown).
Arguments Normal {A} a.
Arguments Throw {A} e.

Record Message := { role : string; content : string }.

Record ChatRequest := {
  model : string;
  messages : list Message;
  response_format : string
}.

Record Choice := { choice_content : option string }.

Record ChatCompletion := { choices : list Choice }.

Record Response := { status : nat; body : json }.

(** *** Evaluation with exceptions and a log of the calls of the
    completion client *)

Definition M (A : Type) : Type :=
  list ChatRequest -> completion A * list ChatRequest.

Definition ret {A} (a : A) : M A := fun log => (Normal a, log).

Definition throw {A} (e : thrown) : M A := fun log => (Throw e, log).

Definition bind {A B} (m : M A) (k : A -> M B) : M B :=
  fun log =>
    match m log with
    | (Normal a, log') => k a log'
    | (Throw e, log') => (Throw e, log')
    end.

Definition lift {A} (c : completion A) : M A := fun log => (c, log).

(** [try { body } catch (e) { handler }] *)
Definition try_catch {A} (body : M A) (handler : thrown -> M A) : M A :=
  fun log =>
    match body log with
    | (Normal a, log') => (Normal a, log')
    | (Throw e, log') => handler e log'
    end.

Notation "'let!' x ':=' m 'in' k" := (bind m (fun x => k))
  (at level 10, x name, m at level 100, k at level 200).

(** *** Constants of the handler *)

Definition dq : string := String "034"%char "".
Definition nl : string := String "010"%char "".

Definition rubricItem (key : string) (weight : Q) (guidance : string) : json :=
  JObj [("key", JStr key); ("weight", JNum weight); ("guidance", JStr guidance)].

Definition rubric : json :=
  JArr [
    rubricItem "Significance" 1.2 "Impact & problem clarity";
    rubricItem "Innovation" 1.0 "Novelty & differentiation";
    rubricItem "Approach" 1.4 "Method, risks, milestones";
    rubricItem "Team/PI" 0.8 "Qualifications & gaps";
    rubricItem "Commercialization" 1.6 "Path to revenue & market"
  ].

Definition systemPrompt : string :=
  "You are an SBIR evaluator. Return strictly JSON with {items:[{criterion_key,score,rationale}]}".

(** The literal ['{"items":[]}']. *)
Definition emptyItems : string := "{" ++ dq ++ "items" ++ dq ++ ":[]}".

(** [s.slice(0, n)] on a string. *)
Definition slice0 (n : nat) (s : string) : string := substring 0 n s.

(** [s || d] on strings: the empty string is falsy. *)
Definition or_default (s d : string) : string :=
  if (s =? "")%string then d else s.

(** The built-ins and the services the handler calls, and what the
    request and the environment hold. *)
Record World := {
  JSON_parse : string -> completion json;
  JSON_stringify : json -> string;
  (** Conversion of a value to a string in a template literal. *)
  ToString : json -> string;
  (** [await req.text()] *)
  req_text : completion string;
  (** [process.env.OPENAI_API_KEY] and [new OpenAI({ apiKey })]. *)
  OPENAI_API_KEY : option string;
  new_OpenAI : option string -> completion unit;
  (** [client.chat.completions.create] *)
  create : ChatRequest -> completion ChatCompletion
}.

Section Route.

Variable w : World.

(** [const { text } = v] *)
Definition destructure_text (v : json) : M (option json) :=
  match v with
  | JNull => throw (TypeError "Cannot destructure property 'text' of 'JSON.parse(...)' as it is null.")
  | JObj props => ret (getProp "text" props)
  | _ => ret None
  end.

(** [text?.slice(0, 6000) || ""], as the template literal of the
    prompt then reads it.  On a string, [slice] keeps the first 6000
    characters.  On an array it keeps the first 6000 elements; the
    array, truthy even when empty, is converted to a string by the
    template literal.  A number, a boolean or an object has no method
    [slice]. *)
Definition sectionText (text : option json) : M string :=
  match text with
  | None => ret ""
  | Some JNull => ret ""
  | Some (JStr s) => ret (or_default (slice0 6000 s) "")
  | Some (JArr items) => ret (ToString w (JArr (take 6000 items)))
  | Some _ => throw (TypeError "text?.slice is not a function")
  end.

Definition userPrompt (section : string) : string :=
  "Rubric: " ++ JSON_stringify w rubric ++ nl ++ "---" ++ nl
    ++ "Section:" ++ nl ++ section.

Definition chatRequest (section : string) : ChatRequest :=
  {| model := "gpt-4o-mini";
     messages := [ {| role := "system"; content := systemPrompt |};
                   {| role := "user"; content := userPrompt section |} ];
     response_format := "json_object" |}.

(** The awaited call of [client.chat.completions.create]; the log
    records the call with its argument.  The client is built without
    [maxRetries] and may make several HTTP attempts for one call: the
    log counts calls, not attempts. *)
Definition call_create (req : ChatRequest) : M ChatCompletion :=
  fun log => (create w req, (log ++ [req])%list).

(** [res.choices[0].message.content] *)
Definition firstContent (res : ChatCompletion) : M (option string) :=
  match choices res with
  | c :: _ => ret (choice_content c)
  | [] => throw (TypeError "Cannot read properties of undefined (reading 'message')")
  end.

(** [x || '{"items":[]}'] where [x] is a string or [null]. *)
Definition contentOrEmpty (c : option string) : string :=
  match c with
  | Some s => or_default s emptyItems
  | None => emptyItems
  end.

(** [NextResponse.json(data)] and [NextResponse.json(data, { status })]. *)
Definition NextResponse_json (data : json) (st : nat) : Response :=
  {| status := st; body := data |}.

(** [e?.message || "failed"] *)
Definition errorMessage (e : thrown) : string :=
  match message e with
  | Some s => or_default s "failed"
  | None => "failed"
  end.

Definition failureBody (e : thrown) : json :=
  JObj [("error", JStr (errorMessage e)); ("items", JArr [])].

(** The body of the [try] block. *)
Definition tryBlock (text : option json) : M Response :=
  let! client := lift (new_OpenAI w (OPENAI_API_KEY w)) in
  let! section := sectionText text in
  let! res := call_create (chatRequest section) in
  let! c := firstContent res in
  let! data := lift (JSON_parse w (contentOrEmpty c)) in
  ret (NextResponse_json data 200).

Definition POST : M Response :=
  let! body := lift (req_text w) in
  let! v := lift (JSON_parse w (or_default body "{}")) in
  let! text := destructure_text v in
  try_catch (tryBlock text)
    (fun e => ret (NextResponse_json (failureBody e) 500)).

End Route.

(** *** A sample environment *)

(** A request body [{"text":"Background: ..."}] and a completion
    content [{"items":[{"criterion_key":"Approach","score":4,"rationale":"Sound"}]}]. *)
Definition sampleBody : string :=
  "{" ++ dq ++ "text" ++ dq ++ ":" ++ dq ++ "Background: ..." ++ dq ++ "}".

Definition sampleContent : string :=
  "{" ++ dq ++ "items" ++ dq ++ ":[{" ++ dq ++ "criterion_key" ++ dq ++ ":"
    ++ dq ++ "Approach" ++ dq ++ "," ++ dq ++ "score" ++ dq ++ ":4,"
    ++ dq ++ "rationale" ++ dq ++ ":" ++ dq ++ "Sound" ++ dq ++ "}]}".

Definition sampleItems : json :=
  JObj [("items",
         JArr [JObj [("criterion_key", JStr "Approach"); ("score", JNum 4);
                     ("rationale", JStr "Sound")]])].

(** A text of 7000 characters, the request body [{"text":"xxx..."}]
    that submits it, and the body [{"text":["xxx..."]}] that submits
    an array holding it. *)
Definition longText : string := string_of_list_ascii (List.repeat "x"%char 7000).

Definition longBody : string :=
  "{" ++ dq ++ "text" ++ dq ++ ":" ++ dq ++ longText ++ dq ++ "}".

Definition arrayBody : string :=
  "{" ++ dq ++ "text" ++ dq ++ ":[" ++ dq ++ longText ++ dq ++ "]}".

(** [JSON.parse] on the texts used below; any other text is taken to
    be malformed. *)
Definition sampleParse (s : string) : completion json :=
  if (s =? "{}")%string then Normal (JObj [])
  else if (s =? "null")%string then Normal JNull
  else if (s =? sampleBody)%string then Normal (JObj [("text", JStr "Background: ...")])
  else if (s =? emptyItems)%string then Normal (JObj [("items", JArr [])])
  else if (s =? sampleContent)%string then Normal sampleItems
  else if (s =? longBody)%string then Normal (JObj [("text", JStr longText)])
  else if (s =? arrayBody)%string
  then Normal (JObj [("text", JArr [JStr longText])])
  else Throw {| message := Some "Unexpected token in JSON" |}.

(** The conversion to a string of the values converted below: a string
    is itself, and an array of strings is its elements separated by
    commas.  Other values are not converted below and are given the
    empty string. *)
Fixpoint sampleToString (v : json) : string :=
  match v with
  | JStr s => s
  | JArr items => String.concat "," (map sampleToString items)
  | _ => ""
  end.

(** An environment in which the request body is [body] and the
    completion service answers [reply]. *)
Definition sampleWorld (body : string) (reply : completion ChatCompletion) : World :=
  {| JSON_parse := sampleParse;
     JSON_stringify := fun _ => "[...]";
     ToString := sampleToString;
     req_text := Normal body;
     OPENAI_API_KEY := Some "sk-demo";
     new_OpenAI := fun key =>
       match key with
       | Some _ => Normal tt
       | None => Throw {| message := Some "The OPENAI_API_KEY environment variable is missing or empty" |}
       end;
     create := fun _ => reply |}.

End ScoreDemo.

(** ** The project page *)

Module ProjectPage.

Import ScoreDemo.

(** The initial text of the draft. *)
Definition defaultSection : string :=
  "Background: ..." ++ nl ++ nl ++ "Technical Approach: ..." ++ nl ++ nl
    ++ "Commercialization Plan: ...".

(** A call of [fetch]: the address and the [method] and [body] options. *)
Record FetchCall := { url : string; method : string; fetch_body : string }.

(** What the page reads of the response: the outcome of [await res.json()]. *)
Record FetchResponse := { res_json : completion json }.

(** The built-ins the page calls. *)
Record Browser := {
  JSON_stringify : json -> string;
  (** [await fetch(url, { method, body })] *)
  fetch : FetchCall -> completion FetchResponse
}.

(** The state of the page, one field per [useState] ([scores] is an
    array or [null]), with the messages shown by [alert] and the calls
    of [fetch] made so far. *)
Record PageState := {
  text : string;
  scores : option json;
  loading : bool;
  alerts : list string;
  fetched : list FetchCall
}.

Definition initialPage : PageState :=
  {| text := defaultSection; scores := None; loading := false;
     alerts := []; fetched := [] |}.

Definition setText (v : string) (st : PageState) : PageState :=
  {| text := v; scores := scores st; loading := loading st;
     alerts := alerts st; fetched := fetched st |}.

Definition setScores (v : option json) (st : PageState) : PageState :=
  {| text := text st; scores := v; loading := loading st;
     alerts := alerts st; fetched := fetched st |}.

Definition setLoading (v : bool) (st : PageState) : PageState :=
  {| text := text st; scores := scores st; loading := v;
     alerts := alerts st; fetched := fetched st |}.

Definition alert (msg : string) (st : PageState) : PageState :=
  {| text := text st; scores := scores st; loading := loading st;
     alerts := (alerts st ++ [msg])%list; fetched := fetched st |}.

Definition called (c : FetchCall) (st : PageState) : PageState :=
  {| text := text st; scores := scores st; loading := loading st;
     alerts := alerts st; fetched := (fetched st ++ [c])%list |}.

(** Truthiness of a JSON value: [null], [false], [0] and the empty
    string are falsy. *)
Definition truthy_json (v : json) : bool :=
  match v with
  | JNull => false
  | JBool b => b
  | JNum q => negb (Qeq_bool q 0)
  | JStr s => negb (s =? "")%string
  | JArr _ => true
  | JObj _ => true
  end.

(** [data.items]: reading a property of [null] throws; a value that is
    not an object, or an object without the property, gives
    [undefined]. *)
Definition items_of (data : json) : completion (option json) :=
  match data with
  | JNull => Throw (TypeError "Cannot read properties of null (reading 'items')")
  | JObj props => Normal (getProp "items" props)
  | _ => Normal None
  end.

(** [x || []] *)
Definition or_empty_array (x : option json) : json :=
  match x with
  | Some v => if truthy_json v then v else JArr []
  | None => JArr []
  end.

Definition failedMessage : string :=
  "Scoring failed. Did you set OPENAI_API_KEY on Vercel?".

(** The request of [handleScore] for a draft. *)
Definition scoreCall (b : Browser) (draft : string) : FetchCall :=
  {| url := "/api/score-demo"; method := "POST";
     fetch_body := JSON_stringify b (JObj [("text", JStr draft)]) |}.

(** The state while the request is out: after [setLoading(true)] and
    [setScores(null)]. *)
Definition handleScore_pending (st : PageState) : PageState :=
  setScores None (setLoading true st).

(** The [try] block with its [catch]. *)
Definition handleScore_try (b : Browser) (st : PageState) : PageState :=
  let st := called (scoreCall b (text st)) st in
  match fetch b (scoreCall b (text st)) with
  | Throw _ => alert failedMessage st
  | Normal res =>
      match res_json res with
      | Throw _ => alert failedMessage st
      | Normal data =>
          match items_of data with
          | Throw _ => alert failedMessage st
          | Normal items => setScores (Some (or_empty_array items)) st
          end
      end
  end.

(** [handleScore], the [finally] block last. *)
Definition handleScore (b : Browser) (st : PageState) : PageState :=
  setLoading false (handleScore_try b (handleScore_pending st)).

(** The response of the route as the page receives it: the body that
    [NextResponse.json] serialised is the value [res.json()] parses. *)
Definition received (r : Response) : FetchResponse :=
  {| res_json := Normal (body r) |}.

(** A browser whose [fetch] reaches nothing. *)
Definition offline : Browser :=
  {| JSON_stringify := fun _ => "{...}";
     fetch := fun _ => Throw (TypeError "Failed to fetch") |}.

(** A browser whose [fetch] is answered with a given response. *)
Definition answering (r : Response) : Browser :=
  {| JSON_stringify := fun _ => "{...}";
     fetch := fun _ => Normal (received r) |}.

End ProjectPage.

(** ** The intake form and the dashboard *)

Module Intake.

Import ScoreDemo.

Record FormValues := {
  title : string;
  agency : string;
  problem : string;
  solution : string;
  team : string;
  commercialization : string
}.

(** What the two pages use of the window: the local storage, the
    messages shown by [alert], and the address the window is at. *)
Record Window := {
  localStorage : gmap string string;
  alerts : list string;
  location_href : string
}.

(** [localStorage.setItem(key, value)]; the storage is taken to have
    room for the value. *)
Definition setItem (key value : string) (win : Window) : Window :=
  {| localStorage := <[ key := value ]> (localStorage win);
     alerts := alerts win; location_href := location_href win |}.

(** [localStorage.getItem(key)]: [null] for an absent key. *)
Definition getItem (key : string) (win : Window) : option string :=
  localStorage win !! key.

(** The submitted values as a JSON object; the order of the keys
    plays no part below. *)
Definition formJson (data : FormValues) : json :=
  JObj [("title", JStr (title data)); ("agency", JStr (agency data));
        ("problem", JStr (problem data)); ("solution", JStr (solution data));
        ("team", JStr (team data));
        ("commercialization", JStr (commercialization data))].

(** What the dashboard shows for an intake: the project card when the
    value is truthy, the line "No projects yet." when it is not. *)
Inductive DashboardView := NoProjects | ProjectCard (intake : json).

Section Pages.

Variable JSON_stringify : json -> string.
Variable JSON_parse : string -> completion json.

(** [onSubmit] of the intake form. *)
Definition onSubmit (data : FormValues) (win : Window) : Window :=
  let win := setItem "lastIntake" (JSON_stringify (formJson data)) win in
  {| localStorage := localStorage win;
     alerts := (alerts win ++ ["Saved intake. Go to Dashboard."])%list;
     location_href := "/dashboard" |}.

(** [x || "null"] where [x] is a string or [null]. *)
Definition or_null (x : option string) : string :=
  match x with
  | Some s => or_default s "null"
  | None => "null"
  end.

(** The [intake] of [DashboardPage]; [win] is [None] where [window] is
    undefined. *)
Definition intake (win : option Window) : completion json :=
  match win with
  | Some win => JSON_parse (or_null (getItem "lastIntake" win))
  | None => Normal JNull
  end.

(** [DashboardPage]: what is rendered, or the error thrown while
    rendering. *)
Definition DashboardPage (win : option Window) : completion DashboardView :=
  match intake win with
  | Normal v =>
      Normal (if ProjectPage.truthy_json v then ProjectCard v else NoProjects)
  | Throw e => Throw e
  end.

End Pages.

(** A window with nothing stored, and form values to submit. *)
Definition emptyWindow : Window :=
  {| localStorage := ∅; alerts := []; location_href := "/intake" |}.

Definition sampleForm : FormValues :=
  {| title := "Autonomous ISR Mesh"; agency := "DAF";
     problem := "Contested environments deny persistent ISR coverage.";
     solution := "A self-healing mesh of low-cost autonomous nodes.";
     team := "Two PIs, one subcontractor.";
     commercialization := "Dual-use sales to border and disaster agencies." |}.

(** Stand-ins for [JSON.stringify] and [JSON.parse] that know the
    sample form and [null]. *)
Definition sampleStringify (v : json) : string := "{...sampleForm...}".

Definition sampleFormParse (s : string) : completion json :=
  if (s =? "null")%string then Normal JNull
  else if (s =? "{...sampleForm...}")%string then Normal (formJson sampleForm)
  else Throw {| message := Some "Unexpected token in JSON" |}.

End Intake.

(** * Properties *)

(** ** Exact arithmetic *)

Section ExactFacts.

Import Num.
Local Open Scope Q_scope.

Lemma Qsum_nil : Qsum [] = 0.
Proof. reflexivity. Qed.

Lemma Qsum_cons x l : Qsum (x :: l) = x + Qsum l.
Proof. reflexivity. Qed.

Lemma Qsum_app l1 l2 : Qsum (l1 ++ l2)%list == Qsum l1 + Qsum l2.
Proof.
  induction l1 as [| x l1 IH].
  - rewrite Qsum_nil. simpl. lra.
  - change ((x :: l1) ++ l2)%list with (x :: (l1 ++ l2))%list.
    rewrite !Qsum_cons, IH. lra.
Qed.

(** A loop that adds [f x] to an accumulator computes a sum. *)
Lemma fold_left_Qsum {A} (f : A -> Q) (l : list A) (acc : Q) :
  fold_left (fun a x => a + f x) l acc == acc + Qsum (map f l).
Proof.
  revert acc. induction l as [| x l IH]; intros acc; cbn [fold_left map].
  - rewrite Qsum_nil. lra.
  - rewrite IH, Qsum_cons. lra.
Qed.

Lemma Qsum_Permutation l1 l2 : Permutation l1 l2 -> Qsum l1 == Qsum l2.
Proof.
  induction 1 as [| x l l' _ IH | x y l | l l' l'' _ IH1 _ IH2].
  - reflexivity.
  - rewrite !Qsum_cons, IH. reflexivity.
  - rewrite !Qsum_cons. lra.
  - by rewrite IH1.
Qed.

(** Pointwise equal summands give equal sums. *)
Lemma Qsum_map_ext {A} (f g : A -> Q) (l : list A) :
  (forall x, In x l -> f x == g x) -> Qsum (map f l) == Qsum (map g l).
Proof.
  induction l as [| x l IH]; intros H; cbn [map].
  - reflexivity.
  - rewrite !Qsum_cons.
    rewrite (H x) by (left; reflexivity).
    rewrite IH by (intros y Hy; apply H; right; exact Hy).
    reflexivity.
Qed.

Lemma Qsum_map_scale {A} (k : Q) (f : A -> Q) (l : list A) :
  Qsum (map (fun x => k * f x) l) == k * Qsum (map f l).
Proof.
  induction l as [| x l IH]; cbn [map].
  - rewrite Qsum_nil. lra.
  - rewrite !Qsum_cons, IH. lra.
Qed.

Lemma toFixed1_comp x y : x == y -> Exact.toFixed1 x == Exact.toFixed1 y.
Proof.
  intros E. unfold Exact.toFixed1. rewrite E.
  destruct (Qle_bool 0 y); by rewrite E.
Qed.

Lemma Qdiv10 x : x / 10 == x * (1 # 10).
Proof. reflexivity. Qed.

(** Rounding to the nearest integer, halves upwards. *)
Lemma Qfloor_half y :
  let n := inject_Z (Qfloor (y + (1 # 2))) in
  - (1 # 2) <= n - y <= 1 # 2.
Proof.
  intros n.
  pose proof (Qfloor_le (y + (1 # 2))) as Hl.
  pose proof (Qlt_floor (y + (1 # 2))) as Hu.
  rewrite inject_Z_plus in Hu. change (inject_Z 1) with 1 in Hu.
  fold n in Hl, Hu. lra.
Qed.

(** The result of [toFixed1] is a whole number of tenths, at most half
    a tenth away from its argument. *)
Lemma toFixed1_tenths x :
  exists n : Z, Exact.toFixed1 x == inject_Z n / 10
    /\ - (1 # 20) <= Exact.toFixed1 x - x <= 1 # 20.
Proof.
  unfold Exact.toFixed1. destruct (Qle_bool 0 x).
  - exists (Qfloor (x * 10 + (1 # 2))). split; [reflexivity |].
    pose proof (Qfloor_half (x * 10)) as H. cbv zeta in H.
    rewrite Qdiv10. lra.
  - exists (- Qfloor (- x * 10 + (1 # 2)))%Z. split.
    + rewrite inject_Z_opp, !Qdiv10. lra.
    + pose proof (Qfloor_half (- x * 10)) as H. cbv zeta in H.
      rewrite Qdiv10. lra.
Qed.

(** Rounding keeps a score within the whole bounds 0 and 100. *)
Lemma toFixed1_bounds x :
  0 <= x <= 100 -> 0 <= Exact.toFixed1 x <= 100.
Proof.
  intros [H0 H1]. unfold Exact.toFixed1.
  apply Qle_bool_iff in H0 as E. rewrite E.
  assert (Hlo : (0 <= Qfloor (x * 10 + (1 # 2)))%Z).
  { change 0%Z with (Qfloor 0). apply Qfloor_resp_le. lra. }
  assert (Hhi : (Qfloor (x * 10 + (1 # 2)) <= 1000)%Z).
  { change 1000%Z with (Qfloor (1000 + (1 # 2))). apply Qfloor_resp_le. lra. }
  rewrite Zle_Qle in Hlo, Hhi. rewrite Qdiv10.
  change (inject_Z 0) with 0 in Hlo. change (inject_Z 1000) with 1000 in Hhi.
  lra.
Qed.

Lemma toFixed1_mono x y : x <= y -> Exact.toFixed1 x <= Exact.toFixed1 y.
Proof.
  intros H. unfold Exact.toFixed1.
  Qle_case 0 x; Qle_case 0 y; try lra.
  - rewrite !Qdiv10. apply Qmult_le_compat_r; [| discriminate].
    rewrite <- Zle_Qle. apply Qfloor_resp_le. lra.
  - assert (H0 : (0 <= Qfloor (y * 10 + (1 # 2)))%Z).
    { change 0%Z with (Qfloor 0). apply Qfloor_resp_le. lra. }
    assert (H1 : (0 <= Qfloor (- x * 10 + (1 # 2)))%Z).
    { change 0%Z with (Qfloor 0). apply Qfloor_resp_le. lra. }
    rewrite Zle_Qle in H0, H1. change (inject_Z 0) with 0 in H0, H1.
    rewrite !Qdiv10. lra.
  - assert (H1 : (Qfloor (- y * 10 + (1 # 2)) <= Qfloor (- x * 10 + (1 # 2)))%Z).
    { apply Qfloor_resp_le. lra. }
    rewrite Zle_Qle in H1. rewrite !Qdiv10. lra.
Qed.

Lemma Qsum_map_le {A} (f g : A -> Q) (l : list A) :
  (forall x, In x l -> f x <= g x) -> Qsum (map f l) <= Qsum (map g l).
Proof.
  induction l as [| x l IH]; intros H; cbn [map].
  - rewrite Qsum_nil. lra.
  - rewrite !Qsum_cons.
    assert (f x <= g x) by (apply H; left; reflexivity).
    assert (Qsum (map f l) <= Qsum (map g l))
      by (apply IH; intros y Hy; apply H; right; exact Hy).
    lra.
Qed.

Lemma max_comp a b a' b' : a == a' -> b == b' -> Exact.max a b == Exact.max a' b'.
Proof.
  intros Ea Eb. unfold Exact.max. rewrite Ea, Eb.
  by destruct (Qle_bool a' b').
Qed.

Lemma min_comp a b a' b' : a == a' -> b == b' -> Exact.min a b == Exact.min a' b'.
Proof.
  intros Ea Eb. unfold Exact.min. rewrite Ea, Eb.
  by destruct (Qle_bool a' b').
Qed.

End ExactFacts.

(** ** The weighted score *)

(** *** Reads that are no rating *)

Section ScoreReads.

Import Num Evaluator.

Context {N : Type} {num : Number N}.

Lemma ratingOf_rated (ratings : gmap string Rating) c :
  ratingOf ratings c
  = if rated ratings c then Some (plainRating ratings c) else None.
Proof.
  unfold rated, ratingOf, plainRating.
  destruct (ratings !! c_id c); [reflexivity |].
  by destruct (inherited (c_id c)).
Qed.

Lemma ratingOf_plainRating (ratings : gmap string Rating) c r :
  ratingOf ratings c = Some r -> plainRating ratings c = r.
Proof.
  unfold ratingOf, plainRating.
  destruct (ratings !! c_id c); [by intros [= ->] |].
  destruct (inherited (c_id c)); [discriminate | by intros [= <-]].
Qed.

Lemma rated_true (ratings : gmap string Rating) c :
  rated ratings c = true
  <-> (ratings !! c_id c = None -> inherited (c_id c) = false).
Proof.
  unfold rated, ratingOf.
  destruct (ratings !! c_id c) as [r |]; [| destruct (inherited (c_id c))];
    split; intros H; try done.
  by specialize (H eq_refl).
Qed.

Lemma readsRatings_allRated config (ratings : gmap string Rating) :
  readsRatings config ratings <-> allRated ratings (categories config) = true.
Proof.
  unfold readsRatings, allRated. rewrite forallb_forall. split.
  - intros H cat Hcat. apply forallb_forall. intros c Hc.
    apply rated_true. by apply (H cat).
  - intros H cat c Hcat Hc. apply rated_true.
    specialize (H cat Hcat). rewrite forallb_forall in H. by apply H.
Qed.

(** A loop over tallies that may be [NaN], against the loop over
    numbers that it is when no step brings [NaN] in. *)
Lemma loop_rated {A} (ok : A -> bool) (f : N -> A -> N)
    (g : option N -> A -> option N) (l : list A) :
  (forall x, g None x = None) ->
  (forall s x, g (Some s) x = if ok x then Some (f s x) else None) ->
  forall acc,
    fold_left g l (Some acc)
    = if forallb ok l then Some (fold_left f l acc) else None.
Proof.
  intros HN HS.
  assert (Hnone : forall l', fold_left g l' None = None).
  { induction l' as [| x l' IH]; [reflexivity |]. simpl. by rewrite HN. }
  induction l as [| x l IH]; intros acc; [reflexivity |].
  simpl. rewrite HS. destruct (ok x); [apply IH | apply Hnone].
Qed.

Lemma catScore_rated (ratings : gmap string Rating) cat :
  catScore ratings cat
  = if forallb (rated ratings) (criteria cat)
    then Some (plainCatScore ratings cat) else None.
Proof.
  unfold catScore, plainCatScore. apply loop_rated.
  - reflexivity.
  - intros s c. rewrite ratingOf_rated. by destruct (rated ratings c).
Qed.

Lemma total_rated (ratings : gmap string Rating) cats :
  total ratings cats
  = if allRated ratings cats then Some (plainTotal ratings cats) else None.
Proof.
  unfold total, plainTotal, allRated. apply loop_rated.
  - reflexivity.
  - intros t cat. rewrite catScore_rated.
    by destruct (forallb (rated ratings) (criteria cat)).
Qed.

Lemma overallScore_rated config (ratings : gmap string Rating) :
  overallScore config ratings
  = if allRated ratings (categories config)
    then Some (plainScore config ratings) else None.
Proof.
  unfold overallScore, plainScore. rewrite total_rated.
  by destruct (allRated ratings (categories config)).
Qed.

Lemma forallb_Permutation {A} (p : A -> bool) l l' :
  Permutation l l' -> forallb p l = forallb p l'.
Proof.
  induction 1 as [| x l l' _ IH | x y l | l l' l'' _ IH1 _ IH2]; simpl.
  - reflexivity.
  - by rewrite IH.
  - by destruct (p x), (p y).
  - by rewrite IH1.
Qed.

End ScoreReads.

Section ScoreFacts.

Import Num Evaluator.
Local Open Scope Q_scope.

Lemma clamp01_comp (x y : Q) : x == y -> clamp01 x == clamp01 y.
Proof.
  intros E. unfold clamp01. exact_arith.
  apply max_comp; [reflexivity |]. by apply min_comp.
Qed.

Lemma clamp01_bounds (x : Q) : 0 <= clamp01 x <= 1.
Proof.
  unfold clamp01. exact_arith. unfold Exact.min. Qle_case 1 x; unfold Exact.max.
  - Qle_case 0 1; lra.
  - Qle_case 0 x; lra.
Qed.

Lemma clamp01_specClamp (x : Q) : clamp01 x == specClamp x.
Proof.
  unfold clamp01, specClamp. exact_arith. unfold Exact.min.
  Qle_case x 0; Qle_case 1 x; unfold Exact.max;
    try (Qle_case 0 1; lra); Qle_case 0 x; lra.
Qed.

Lemma ratingToScore_spec (ratings : gmap string Rating) c :
  ratingToScore (N:=Q) (plainRating ratings c) = specRatingScore (ratings !! c_id c).
Proof. unfold plainRating. by destruct (ratings !! c_id c) as [[] |]. Qed.

Lemma plainCatScore_specSubtotal ratings cat :
  plainCatScore ratings cat == specSubtotal ratings cat.
Proof.
  unfold plainCatScore, specSubtotal. exact_arith.
  rewrite (fold_left_Qsum (fun c => ratingToScore (plainRating ratings c) * c_weight c)).
  rewrite Qplus_0_l. apply Qsum_map_ext. intros c _.
  by rewrite ratingToScore_spec.
Qed.

Lemma plainTotal_specWeighted ratings cats :
  plainTotal ratings cats == specWeighted ratings cats.
Proof.
  unfold plainTotal, specWeighted. exact_arith.
  rewrite (fold_left_Qsum (fun cat => clamp01 (plainCatScore ratings cat) * cat_weight cat)).
  rewrite Qplus_0_l. apply Qsum_map_ext. intros cat _.
  rewrite (clamp01_comp _ _ (plainCatScore_specSubtotal ratings cat)).
  by rewrite clamp01_specClamp.
Qed.

(** Every rated criterion Acceptable: the subtotal is 0.6 times the
    sum of the criterion weights. *)
Lemma specSubtotal_acceptable (ratings : gmap string Rating) cat :
  (forall c, In c (criteria cat) -> plainRating ratings c = Acceptable) ->
  specSubtotal ratings cat == 0.6 * Qsum (map c_weight (criteria cat)).
Proof.
  intros H. unfold specSubtotal.
  rewrite <- Qsum_map_scale. apply Qsum_map_ext. intros c Hc.
  rewrite <- ratingToScore_spec, (H c Hc). reflexivity.
Qed.

Lemma specClamp_comp x y : x == y -> specClamp x == specClamp y.
Proof.
  intros E. rewrite <- !clamp01_specClamp. by apply clamp01_comp.
Qed.

Lemma plainScore_spec config ratings :
  plainScore config ratings
  == Exact.toFixed1 (specWeighted ratings (categories config) * 100).
Proof.
  unfold plainScore. exact_arith. apply toFixed1_comp.
  by rewrite plainTotal_specWeighted.
Qed.

(** The clamped subtotals weigh at most the category weights. *)
Lemma specWeighted_bounds ratings cats :
  (forall cat, In cat cats -> 0 <= cat_weight cat) ->
  0 <= specWeighted ratings cats <= Qsum (map cat_weight cats).
Proof.
  unfold specWeighted. induction cats as [| cat cats IH]; intros Hw; cbn [map].
  - rewrite Qsum_nil. lra.
  - rewrite !Qsum_cons.
    assert (H0 : 0 <= cat_weight cat) by (apply Hw; left; reflexivity).
    destruct IH as [IH1 IH2]; [intros c Hc; apply Hw; right; exact Hc |].
    pose proof (clamp01_bounds (specSubtotal ratings cat)) as [Hc0 Hc1].
    rewrite clamp01_specClamp in Hc0, Hc1.
    set (k := specClamp (specSubtotal ratings cat)) in *.
    split; nra.
Qed.



(** Every criterion of the default configuration has an ordinary id. *)
Lemma readsRatings_default (ratings : gmap string Rating) :
  readsRatings DEFAULT_CONFIG ratings.
Proof.
  intros cat c Hcat Hc _. simpl in Hcat.
  destruct Hcat as [<- | [<- | [<- | []]]]; simpl in Hc;
    repeat destruct Hc as [<- | Hc]; try reflexivity; destruct Hc.
Qed.


(** *** The same engine in binary64 arithmetic *)

(** The default configuration in binary64: no rating scores 60, every
    criterion rated Excellent scores 100 and every criterion rated Poor
    scores 20. *)
Example overallScore_default_binary64 :
  overallScore (N:=float) DEFAULT_CONFIG ∅ = Some (lit 60)
  /\ overallScore (N:=float) DEFAULT_CONFIG (uniformRatings DEFAULT_CONFIG Excellent)
     = Some (lit 100)
  /\ overallScore (N:=float) DEFAULT_CONFIG (uniformRatings DEFAULT_CONFIG Poor)
     = Some (lit 20).
Proof. repeat split; by vm_compute. Qed.




Lemma plainTotal_Permutation ratings cats cats' :
  Permutation cats cats' -> plainTotal ratings cats == plainTotal ratings cats'.
Proof.
  intros HP. rewrite !plainTotal_specWeighted. unfold specWeighted.
  apply Qsum_Permutation. by apply Permutation_map.
Qed.

Lemma specSubtotal_Permutation ratings cat cs :
  Permutation (criteria cat) cs ->
  specSubtotal ratings (with_criteria cs cat) == specSubtotal ratings cat.
Proof.
  intros HP. unfold specSubtotal. cbn [criteria with_criteria].
  apply Qsum_Permutation. apply Permutation_map. by symmetry.
Qed.

Lemma plainTotal_criteria_Permutation ratings before cat after cs :
  Permutation (criteria cat) cs ->
  plainTotal ratings (before ++ with_criteria cs cat :: after)%list
  == plainTotal ratings (before ++ cat :: after)%list.
Proof.
  intros HP. rewrite !plainTotal_specWeighted. unfold specWeighted.
  rewrite !map_app, !Qsum_app. cbn [map]. rewrite !Qsum_cons.
  rewrite (specClamp_comp _ _ (specSubtotal_Permutation ratings cat cs HP)).
  reflexivity.
Qed.

Lemma allRated_criteria_Permutation (ratings : gmap string Rating)
    before cat after cs :
  Permutation (criteria cat) cs ->
  allRated ratings (before ++ with_criteria cs cat :: after)%list
  = allRated ratings (before ++ cat :: after)%list.
Proof.
  intros HP. unfold allRated. rewrite !forallb_app. simpl.
  by rewrite (forallb_Permutation (rated ratings) _ _ HP).
Qed.




End ScoreFacts.

(** ** The mandatory gate *)

Section GateFacts.

Import Num Evaluator.

Context {N : Type} {num : Number N}.

(** The value computed for a criterion depends on its id alone. *)
Lemma gate_id config proposalMeta m m' :
  m_id m = m_id m' -> gate config proposalMeta m = gate config proposalMeta m'.
Proof. intros E. unfold gate. by rewrite E. Qed.

(** An id that is none of the five recognized ones leaves [ok] as it
    starts. *)
Lemma gate_unrecognized config proposalMeta m :
  ~ In (m_id m) recognizedIds -> gate config proposalMeta m = true.
Proof.
  intros Hid. unfold gate.
  repeat match goal with
  | |- context [String.eqb (m_id m) ?k] =>
      destruct (String.eqb_spec (m_id m) k) as [E | _];
      [exfalso; apply Hid; rewrite E; simpl; tauto |]
  end.
  reflexivity.
Qed.

Lemma assign_proto value (map : gmap string bool) :
  assign "__proto__" value map = map.
Proof. reflexivity. Qed.

Lemma assign_insert key value (map : gmap string bool) :
  key <> "__proto__" -> assign key value map = <[ key := value ]> map.
Proof.
  intros NE. unfold assign. by destruct (String.eqb_spec key "__proto__").
Qed.

(** What a read finds after an assignment. *)
Lemma assign_lookup key value (map : gmap string bool) k :
  assign key value map !! k
  = if decide (key = k /\ key <> "__proto__") then Some value else map !! k.
Proof.
  unfold assign. destruct (String.eqb_spec key "__proto__") as [E | NE].
  - case_decide as H; [by destruct H | reflexivity].
  - case_decide as H.
    + destruct H as [<- _]. by rewrite lookup_insert_eq.
    + rewrite lookup_insert_ne; [reflexivity |]. intros E. by apply H.
Qed.

(** The loop of [mandatoryResults], started from any map: the entry
    of a listed criterion is the value of its gate, unless its id is
    [__proto__]. *)
Lemma mandatory_loop_lookup config proposalMeta ms (acc : gmap string bool) m :
  In m ms ->
  m_id m <> "__proto__" ->
  fold_left (fun map m => assign (m_id m) (gate config proposalMeta m) map) ms acc
    !! m_id m
  = Some (gate config proposalMeta m).
Proof.
  intros Hin NP. induction ms as [| x ms IH] using rev_ind.
  - destruct Hin.
  - rewrite fold_left_app. simpl. rewrite assign_lookup.
    case_decide as H.
    + destruct H as [E _]. f_equal. by apply gate_id.
    + apply in_app_or in Hin as [Hin | [-> | []]]; [by apply IH |].
      exfalso. by apply H.
Qed.

(** Under the name [__proto__] the loop stores nothing. *)
Lemma mandatory_loop_proto config proposalMeta ms (acc : gmap string bool) :
  fold_left (fun map m => assign (m_id m) (gate config proposalMeta m) map) ms acc
    !! "__proto__"
  = acc !! "__proto__".
Proof.
  induction ms as [| x ms IH] using rev_ind; [reflexivity |].
  rewrite fold_left_app. simpl. rewrite assign_lookup.
  case_decide as H; [| exact IH]. destruct H as [E NE]. by rewrite E in NE.
Qed.

(** Every listed criterion whose id is not [__proto__] has an entry,
    and the entry is its gate. *)
Lemma mandatoryResults_lookup config proposalMeta m :
  In m (mandatory config) ->
  m_id m <> "__proto__" ->
  mandatoryResults config proposalMeta !! m_id m
  = Some (gate config proposalMeta m).
Proof. apply mandatory_loop_lookup. Qed.

Lemma mandatoryResults_proto config proposalMeta :
  mandatoryResults config proposalMeta !! "__proto__" = None.
Proof. unfold mandatoryResults. by rewrite mandatory_loop_proto. Qed.

Lemma proto_unrecognized : ~ In "__proto__" recognizedIds.
Proof.
  simpl. intros H. repeat destruct H as [H | H]; try discriminate H. exact H.
Qed.

Lemma disqualified_true config proposalMeta :
  disqualified config proposalMeta = true <->
  exists m, In m (mandatory config) /\ required m = true
    /\ mandatoryResults config proposalMeta !! m_id m = Some false.
Proof.
  unfold disqualified. rewrite existsb_exists. split.
  - intros (m & Hin & H). apply andb_true_iff in H as [Hr Hf].
    exists m. repeat split; [exact Hin | exact Hr |].
    unfold is_false in Hf.
    by destruct (mandatoryResults config proposalMeta !! m_id m) as [[] |].
  - intros (m & Hin & Hr & Hf). exists m. split; [exact Hin |].
    by rewrite Hr, Hf.
Qed.

(** The result map has one entry per id of the mandatory list other
    than [__proto__], and no other. *)
Theorem mandatoryResults_dom (config : SolicitationConfig)
    (proposalMeta : ProposalMeta) :
  dom (mandatoryResults config proposalMeta)
  = list_to_set (map m_id (mandatory config)) ∖ {[ "__proto__" ]}.
Proof.
  unfold mandatoryResults.
  induction (mandatory config) as [| m ms IH] using rev_ind.
  - simpl. rewrite dom_empty_L. apply set_eq. intros x.
    rewrite elem_of_difference, elem_of_empty. tauto.
  - rewrite fold_left_app, map_app, list_to_set_app_L. simpl.
    destruct (decide (m_id m = "__proto__")) as [E | NE].
    + rewrite E, assign_proto, IH. apply set_eq. intros x.
      rewrite !elem_of_difference, !elem_of_union, elem_of_singleton,
        elem_of_empty.
      tauto.
    + rewrite assign_insert by exact NE. rewrite dom_insert_L, IH.
      apply set_eq. intros x.
      rewrite !elem_of_union, !elem_of_difference, !elem_of_union,
        !elem_of_singleton, elem_of_empty.
      intuition congruence.
Qed.

(** C1.  The proposal is disqualified exactly when some criterion of
    the mandatory list is required and is recorded as not satisfied in
    the result map; the recorded value is the one the gate computes for
    that criterion. *)
Theorem disqualified_iff (config : SolicitationConfig)
    (proposalMeta : ProposalMeta) :
  (disqualified config proposalMeta = true <->
   exists m, In m (mandatory config) /\ required m = true
     /\ mandatoryResults config proposalMeta !! m_id m = Some false)
  /\ (forall m, In m (mandatory config) ->
        (mandatoryResults config proposalMeta !! m_id m = Some false
         <-> gate config proposalMeta m = false)).
Proof.
  split.
  - apply disqualified_true.
  - intros m Hin. destruct (decide (m_id m = "__proto__")) as [E | NE].
    + rewrite E, mandatoryResults_proto, gate_unrecognized;
        [split; discriminate |].
      rewrite E. apply proto_unrecognized.
    + rewrite (mandatoryResults_lookup _ _ _ Hin NE).
      split; [by intros [= ->] | by intros ->].
Qed.

(** A mandatory criterion whose id is none of the five recognized ids,
    nor [__proto__], is recorded as satisfied, whatever its other
    fields and whatever the proposal metadata. *)
Theorem unrecognized_id_satisfied (config : SolicitationConfig)
    (proposalMeta : ProposalMeta) (m : MandatoryCriterion) :
  In m (mandatory config) ->
  ~ In (m_id m) recognizedIds ->
  m_id m <> "__proto__" ->
  mandatoryResults config proposalMeta !! m_id m = Some true.
Proof.
  intros Hin Hid NP. rewrite (mandatoryResults_lookup _ _ _ Hin NP). f_equal.
  by apply gate_unrecognized.
Qed.

(** What the gate computes for each of the five recognized ids. *)
Lemma gate_by_id (config : SolicitationConfig) (proposalMeta : ProposalMeta)
    (m : MandatoryCriterion) :
  In m (mandatory config) ->
  (m_id m = "costCap" ->
     mandatoryResults config proposalMeta !! "costCap"
     = Some (if truthy_cap (costCapUSD config)
             then leq_cap (costTotal proposalMeta) (costCapUSD config)
             else true))
  /\ (m_id m = "popCap" ->
      mandatoryResults config proposalMeta !! "popCap"
      = Some (if truthy_cap (maxPoPMonths config)
              then leq_cap (popMonths proposalMeta) (maxPoPMonths config)
              else true))
  /\ (m_id m = "pages" ->
      mandatoryResults config proposalMeta !! "pages"
      = Some (if truthy_cap (pagePolicy config ≫= techVolumeMaxPages)
              then leq_cap (tvPages proposalMeta)
                           (pagePolicy config ≫= techVolumeMaxPages)
              else true))
  /\ (m_id m = "cmSigned" ->
      mandatoryResults config proposalMeta !! "cmSigned"
      = Some (cmSigned proposalMeta))
  /\ (m_id m = "rcf" ->
      mandatoryResults config proposalMeta !! "rcf"
      = Some (rcfPresent proposalMeta)).
Proof.
  intros Hin.
  repeat split; intros Hid;
    rewrite <- Hid, (mandatoryResults_lookup _ _ _ Hin)
      by (rewrite Hid; discriminate);
    f_equal; unfold gate; rewrite Hid;
    cbn [String.eqb Ascii.eqb Bool.eqb andb]; reflexivity.
Qed.

(** The worked example of section 8, in any number system in which
    1,180,000 is at most 1,250,000, 14 at most 15, and neither cap is
    zero. *)
Lemma gate_worked_example_any (config : SolicitationConfig)
    (proposalMeta : ProposalMeta) (mCost mPages mSigned : MandatoryCriterion) :
  truthy (lit 1250000) = true -> leb (lit 1180000) (lit 1250000) = true ->
  truthy (lit 15) = true -> leb (lit 14) (lit 15) = true ->
  costCapUSD config = Some 1250000%Q ->
  pagePolicy config ≫= techVolumeMaxPages = Some 15%Q ->
  In mCost (mandatory config) -> m_id mCost = "costCap" -> required mCost = true ->
  In mPages (mandatory config) -> m_id mPages = "pages" -> required mPages = true ->
  In mSigned (mandatory config) -> m_id mSigned = "cmSigned" -> required mSigned = true ->
  costTotal proposalMeta = 1180000%Q ->
  tvPages proposalMeta = 14%Q ->
  cmSigned proposalMeta = false ->
  mandatoryResults config proposalMeta !! "costCap" = Some true
  /\ mandatoryResults config proposalMeta !! "pages" = Some true
  /\ mandatoryResults config proposalMeta !! "cmSigned" = Some false
  /\ disqualified config proposalMeta = true.
Proof.
  intros Tcap Lcost Tpages Ltv Hcap Hpages HinC HidC HrC HinP HidP HrP
    HinS HidS HrS Hcost Htv Hsigned.
  destruct (gate_by_id config proposalMeta mCost HinC) as (Rc & _).
  destruct (gate_by_id config proposalMeta mPages HinP) as (_ & _ & Rp & _).
  destruct (gate_by_id config proposalMeta mSigned HinS) as (_ & _ & _ & Rs & _).
  specialize (Rc HidC). specialize (Rp HidP). specialize (Rs HidS).
  rewrite Hcap, Hcost in Rc. rewrite Hpages, Htv in Rp. rewrite Hsigned in Rs.
  cbn [truthy_cap leq_cap] in Rc, Rp. rewrite Tcap, Lcost in Rc.
  rewrite Tpages, Ltv in Rp.
  repeat split; try assumption.
  apply disqualified_true. exists mSigned. by rewrite HidS.
Qed.

End GateFacts.

Section GateExamples.

Import Num Evaluator.

Lemma disqualified_iff_witness :
  exists m, In m (mandatory DEFAULT_CONFIG) /\ required m = true
    /\ mandatoryResults (N:=float) DEFAULT_CONFIG initialProposalMeta !! m_id m
       = Some false.
Proof.
  apply (proj1 (disqualified_iff (N:=float) DEFAULT_CONFIG initialProposalMeta)).
  reflexivity.
Defined.

Lemma unrecognized_id_satisfied_witness :
  mandatoryResults (N:=float)
    (with_mandatory [mkMandatory "itar" "ITAR statement included" "itar_present"
                       (Some {| kind := KPages; value := 1 |}) true]
                    DEFAULT_CONFIG)
    initialProposalMeta !! "itar" = Some true.
Proof.
  apply (unrecognized_id_satisfied (N:=float)
           (with_mandatory [mkMandatory "itar" "ITAR statement included"
                              "itar_present"
                              (Some {| kind := KPages; value := 1 |}) true]
                           DEFAULT_CONFIG)
           initialProposalMeta
           (mkMandatory "itar" "ITAR statement included" "itar_present"
              (Some {| kind := KPages; value := 1 |}) true)).
  - left. reflexivity.
  - simpl. intros H. repeat destruct H as [H | H]; try discriminate H. exact H.
  - discriminate.
Defined.

(** C5.  A mandatory list that holds one required criterion of id
    [__proto__], which is none of the five recognized ids: the loop
    computes [true] for it and stores nothing, so the result map is
    empty and holds no [true] for the criterion; none of the one
    criterion counts as passing, and the proposal is not
    disqualified. *)
Theorem proto_id_not_recorded :
  In protoCriterion (mandatory protoMandatory)
  /\ ~ In (m_id protoCriterion) recognizedIds
  /\ gate (N:=float) protoMandatory initialProposalMeta protoCriterion = true
  /\ mandatoryResults (N:=float) protoMandatory initialProposalMeta = ∅
  /\ mandatoryResults (N:=float) protoMandatory initialProposalMeta
       !! m_id protoCriterion <> Some true
  /\ mandatoryPassCount (N:=float) protoMandatory initialProposalMeta = 0%nat
  /\ mandatoryTotal protoMandatory = 1%nat
  /\ disqualified (N:=float) protoMandatory initialProposalMeta = false.
Proof.
  split; [left; reflexivity |].
  split; [apply proto_unrecognized |].
  repeat split; try reflexivity. discriminate.
Qed.

(** The full result map of the default configuration for the
    metadata left by the upload stub, in binary64. *)
Example mandatoryResults_uploaded_binary64 :
  mandatoryResults (N:=float) DEFAULT_CONFIG uploadedProposalMeta
  = {[ "costCap" := true; "popCap" := true; "cmSigned" := false;
       "pages" := true; "rcf" := false ]}
  /\ disqualified (N:=float) DEFAULT_CONFIG uploadedProposalMeta = true.
Proof. split; [by vm_compute | reflexivity]. Qed.

(** C8.  Cost 1,180,000 against a cap of 1,250,000 and 14 pages against
    a cap of 15 are satisfied, an unsigned customer memorandum is not,
    and the three criteria being required the proposal is disqualified:
    in exact arithmetic and in binary64 alike. *)
Theorem gate_worked_example (config : SolicitationConfig)
    (proposalMeta : ProposalMeta) (mCost mPages mSigned : MandatoryCriterion) :
  costCapUSD config = Some 1250000%Q ->
  pagePolicy config ≫= techVolumeMaxPages = Some 15%Q ->
  In mCost (mandatory config) -> m_id mCost = "costCap" -> required mCost = true ->
  In mPages (mandatory config) -> m_id mPages = "pages" -> required mPages = true ->
  In mSigned (mandatory config) -> m_id mSigned = "cmSigned" -> required mSigned = true ->
  costTotal proposalMeta = 1180000%Q ->
  tvPages proposalMeta = 14%Q ->
  cmSigned proposalMeta = false ->
  (mandatoryResults (N:=Q) config proposalMeta !! "costCap" = Some true
   /\ mandatoryResults (N:=Q) config proposalMeta !! "pages" = Some true
   /\ mandatoryResults (N:=Q) config proposalMeta !! "cmSigned" = Some false
   /\ disqualified (N:=Q) config proposalMeta = true)
  /\ (mandatoryResults (N:=float) config proposalMeta !! "costCap" = Some true
      /\ mandatoryResults (N:=float) config proposalMeta !! "pages" = Some true
      /\ mandatoryResults (N:=float) config proposalMeta !! "cmSigned" = Some false
      /\ disqualified (N:=float) config proposalMeta = true).
Proof.
  intros Hcap Hpages HinC HidC HrC HinP HidP HrP HinS HidS HrS Hcost Htv Hsigned.
  split;
    apply (gate_worked_example_any config proposalMeta mCost mPages mSigned);
    first [assumption | reflexivity].
Qed.

Lemma gate_worked_example_witness :
  (mandatoryResults (N:=Q) DEFAULT_CONFIG uploadedProposalMeta !! "costCap" = Some true
   /\ mandatoryResults (N:=Q) DEFAULT_CONFIG uploadedProposalMeta !! "pages" = Some true
   /\ mandatoryResults (N:=Q) DEFAULT_CONFIG uploadedProposalMeta !! "cmSigned"
      = Some false
   /\ disqualified (N:=Q) DEFAULT_CONFIG uploadedProposalMeta = true)
  /\ (mandatoryResults (N:=float) DEFAULT_CONFIG uploadedProposalMeta !! "costCap"
      = Some true
      /\ mandatoryResults (N:=float) DEFAULT_CONFIG uploadedProposalMeta !! "pages"
         = Some true
      /\ mandatoryResults (N:=float) DEFAULT_CONFIG uploadedProposalMeta !! "cmSigned"
         = Some false
      /\ disqualified (N:=float) DEFAULT_CONFIG uploadedProposalMeta = true).
Proof.
  apply (gate_worked_example DEFAULT_CONFIG uploadedProposalMeta
           (mkMandatory "costCap" "SBIR cost ≤ $1.25M" "cost_total"
              (Some {| kind := KNumber; value := 1250000 |}) true)
           (mkMandatory "pages"
              "Technical Volume ≤ 15 pages (excl. Cover/TOC/Glossary)"
              "tv_pages" (Some {| kind := KPages; value := 15 |}) true)
           (mkMandatory "cmSigned"
              "Signed Customer Memorandum (end-user, customer, TPOC)"
              "cm_signed" None true));
    try reflexivity; simpl; tauto.
Defined.

End GateExamples.

(** ** Milestones and configuration loading *)

Section StateFacts.

Import Evaluator.

(** C9.  The badge of a milestone is "Strong" exactly when it is both
    R&D-centric and measurable; the three other combinations of the two
    flags give "Needs Work". *)
Theorem milestoneBadge_strong_iff (m : Milestone) :
  (milestoneBadge m = "Strong" <-> rdCentric m = true /\ measurable m = true)
  /\ (rdCentric m = true -> measurable m = false -> milestoneBadge m = "Needs Work")
  /\ (rdCentric m = false -> measurable m = true -> milestoneBadge m = "Needs Work")
  /\ (rdCentric m = false -> measurable m = false -> milestoneBadge m = "Needs Work").
Proof.
  unfold milestoneBadge.
  destruct (rdCentric m), (measurable m); simpl;
    repeat split; intros; try discriminate; try reflexivity;
    match goal with H : _ /\ _ |- _ => destruct H; discriminate end.
Qed.

Lemma milestoneBadge_strong_iff_witness : milestoneBadge firstMilestone = "Strong".
Proof.
  apply (proj1 (milestoneBadge_strong_iff firstMilestone)).
  split; reflexivity.
Defined.

(** C6.  When the text does not parse, the state is left as it was but
    for the alert shown to the user: the active configuration and every
    other field keep their values.  When it parses, the parsed document
    becomes the active configuration, whole, and nothing else
    changes. *)
Theorem handleLoadConfig_atomic
    (JSON_parse : string -> option SolicitationConfig) (st : AppState) :
  (JSON_parse (configText st) = None ->
     config (handleLoadConfig JSON_parse st) = config st
     /\ handleLoadConfig JSON_parse st
        = {| phase := phase st; configText := configText st;
             ousdreText := ousdreText st; config := config st;
             ousdre := ousdre st; proposalMeta := proposalMeta st;
             ratings := ratings st; milestones := milestones st;
             alerts := (alerts st ++ ["Invalid solicitation JSON"])%list |})
  /\ (forall parsed, JSON_parse (configText st) = Some parsed ->
        config (handleLoadConfig JSON_parse st) = parsed
        /\ handleLoadConfig JSON_parse st
           = {| phase := phase st; configText := configText st;
                ousdreText := ousdreText st; config := parsed;
                ousdre := ousdre st; proposalMeta := proposalMeta st;
                ratings := ratings st; milestones := milestones st;
                alerts := alerts st |}).
Proof.
  unfold handleLoadConfig. split.
  - intros ->. split; reflexivity.
  - intros parsed ->. split; reflexivity.
Qed.

Lemma handleLoadConfig_atomic_witness :
  config (handleLoadConfig parseKnownDocument (initialState "{ not json" ""))
  = DEFAULT_CONFIG
  /\ alerts (handleLoadConfig parseKnownDocument (initialState "{ not json" ""))
     = ["Invalid solicitation JSON"]
  /\ config (handleLoadConfig parseKnownDocument
               (initialState twoHeavyCategoriesText ""))
     = twoHeavyCategories
  /\ alerts (handleLoadConfig parseKnownDocument
               (initialState twoHeavyCategoriesText ""))
     = [].
Proof.
  destruct (handleLoadConfig_atomic parseKnownDocument (initialState "{ not json" ""))
    as [Hfail _].
  destruct (handleLoadConfig_atomic parseKnownDocument
              (initialState twoHeavyCategoriesText "")) as [_ Hok].
  destruct (Hfail eq_refl) as [Hc Hst].
  destruct (Hok twoHeavyCategories eq_refl) as [Hc' Hst'].
  rewrite Hst, Hst'. repeat split.
Defined.

(** After [setRating id val], a criterion of that id reads [val] and
    every other criterion reads what it read before. *)
Theorem setRating_ratingOf (id : string) (val : Rating) (st : AppState)
    (c : RubricCriterion) :
  ratingOf (ratings (setRating id val st)) c
  = if decide (c_id c = id) then Some val else ratingOf (ratings st) c.
Proof.
  unfold setRating, ratingOf. cbn [ratings setRatings].
  case_decide as E.
  - by rewrite E, lookup_insert_eq.
  - by rewrite lookup_insert_ne.
Qed.

End StateFacts.

(** ** The scoring route *)

Section RouteFacts.

Import ScoreDemo.

Lemma or_default_empty s : or_default s "" = s.
Proof. unfold or_default. by destruct (String.eqb_spec s ""). Qed.

Lemma slice0_length n s : String.length (slice0 n s) = Nat.min n (String.length s).
Proof.
  unfold slice0. revert n. induction s as [| a s IH]; intros [| n]; simpl; try reflexivity.
  by rewrite IH.
Qed.

Lemma slice0_prefix n s : exists rest, s = slice0 n s ++ rest.
Proof.
  unfold slice0. revert n. induction s as [| a s IH]; intros [| n]; simpl.
  - by exists "".
  - by exists "".
  - by exists (String a s).
  - destruct (IH n) as [rest E]. exists rest.
    change (String a s = String a (substring 0 n s ++ rest)). by rewrite <- E.
Qed.

Variable w : World.

(** Once the request body is read and parsed, the handler is its
    guarded block. *)
Lemma POST_parsed body v text log :
  req_text w = Normal body ->
  JSON_parse w (or_default body "{}") = Normal v ->
  destructure_text v log = (Normal text, log) ->
  POST w log
  = match tryBlock w text log with
    | (Normal r, log') => (Normal r, log')
    | (Throw e, log') => (Normal (NextResponse_json (failureBody e) 500), log')
    end.
Proof.
  intros Hb Hv Ht. unfold POST, bind, lift, try_catch, ret.
  rewrite Hb, Hv, Ht. reflexivity.
Qed.

Lemma destructure_text_nonnull v log :
  v <> JNull -> exists text, destructure_text v log = (Normal text, log).
Proof. intros H. destruct v; try congruence; eexists; reflexivity. Qed.

(** A response of the guarded block is a parsed completion. *)
Lemma tryBlock_normal text log r log' :
  tryBlock w text log = (Normal r, log') ->
  status r = 200%nat
  /\ exists section c rest,
       create w (chatRequest w section) = Normal {| choices := c :: rest |}
       /\ JSON_parse w (contentOrEmpty (choice_content c)) = Normal (body r).
Proof.
  unfold tryBlock, bind, lift, call_create, ret.
  destruct (new_OpenAI w (OPENAI_API_KEY w)) as [[] | e]; [| discriminate].
  destruct (sectionText w text log) as [[section | e] log1]; [| discriminate].
  destruct (create w (chatRequest w section)) as [[[| c rest]] | e] eqn:Hc;
    try discriminate.
  cbn [firstContent choices ret].
  destruct (JSON_parse w (contentOrEmpty (choice_content c))) as [data | e] eqn:Hp;
    [| discriminate].
  intros [= <- <-]. split; [reflexivity |].
  exists section, c, rest. by rewrite Hc.
Qed.

(** The guarded block, step by step. *)
Lemma tryBlock_steps text log :
  tryBlock w text log
  = match new_OpenAI w (OPENAI_API_KEY w) with
    | Throw e => (Throw e, log)
    | Normal _ =>
        match sectionText w text log with
        | (Throw e, log1) => (Throw e, log1)
        | (Normal section, log1) =>
            let sent := (log1 ++ [chatRequest w section])%list in
            match create w (chatRequest w section) with
            | Throw e => (Throw e, sent)
            | Normal res =>
                match firstContent res sent with
                | (Throw e, log2) => (Throw e, log2)
                | (Normal c, log2) =>
                    match JSON_parse w (contentOrEmpty c) with
                    | Throw e => (Throw e, log2)
                    | Normal data => (Normal (NextResponse_json data 200), log2)
                    end
                end
            end
        end
    end.
Proof.
  unfold tryBlock, bind, lift, call_create, ret.
  destruct (new_OpenAI w (OPENAI_API_KEY w)); [| reflexivity].
  destruct (sectionText w text log) as [[section | e] log1]; [| reflexivity].
  destruct (create w (chatRequest w section)); [| reflexivity].
  destruct (firstContent _ _) as [[c | e] log2]; [| reflexivity].
  by destruct (JSON_parse w (contentOrEmpty c)).
Qed.

(** What the guarded block has sent when it ends. *)
Lemma tryBlock_sent text section :
  sectionText w text [] = (Normal section, []) ->
  snd (tryBlock w text [])
  = match new_OpenAI w (OPENAI_API_KEY w) with
    | Throw _ => []
    | Normal _ => [chatRequest w section]
    end.
Proof.
  intros Hs. rewrite tryBlock_steps, Hs.
  destruct (new_OpenAI w (OPENAI_API_KEY w)); [| reflexivity].
  cbn zeta. destruct (create w (chatRequest w section)) as [res | e]; [| reflexivity].
  unfold firstContent, ret, throw.
  destruct (choices res) as [| c rest]; [reflexivity |].
  by destruct (JSON_parse w (contentOrEmpty (choice_content c))).
Qed.

Lemma POST_sent body v text :
  req_text w = Normal body ->
  JSON_parse w (or_default body "{}") = Normal v ->
  destructure_text v [] = (Normal text, []) ->
  snd (POST w []) = snd (tryBlock w text []).
Proof.
  intros Hb Hv Ht. rewrite (POST_parsed body v text [] Hb Hv Ht).
  by destruct (tryBlock w text []) as [[r | e] log'].
Qed.

(** The handler calls [client.chat.completions.create] at most once. *)
Theorem POST_sends_at_most_one : (length (snd (POST w [])) <= 1)%nat.
Proof.
  unfold POST, bind, lift, try_catch, ret.
  destruct (req_text w) as [body | e]; [| simpl; lia].
  destruct (JSON_parse w (or_default body "{}")) as [v | e]; [| simpl; lia].
  destruct (destructure_text v []) as [[text | e] log] eqn:Hd.
  - assert (log = []) as ->.
    { destruct v; simpl in Hd; unfold ret, throw in Hd; congruence. }
    assert (H : (length (snd (tryBlock w text [])) <= 1)%nat).
    { rewrite tryBlock_steps.
      destruct (new_OpenAI w (OPENAI_API_KEY w)); [| simpl; lia].
      destruct (sectionText w text []) as [[section | e] log1] eqn:Hs.
      - assert (log1 = []) as ->.
        { destruct text as [[] |]; simpl in Hs; unfold ret, throw in Hs;
            congruence. }
        cbn zeta.
        destruct (create w (chatRequest w section)) as [res | e]; [| simpl; lia].
        unfold firstContent, throw, ret.
        destruct (choices res); [simpl; lia |].
        destruct (JSON_parse w (contentOrEmpty _)); simpl; lia.
      - assert (log1 = []) as ->.
        { destruct text as [[] |]; simpl in Hs; unfold ret, throw in Hs;
            congruence. }
        simpl; lia. }
    destruct (tryBlock w text []) as [[r | e] log']; exact H.
  - assert (log = []) as ->.
    { destruct v; simpl in Hd; unfold ret, throw in Hd; congruence. }
    simpl; lia.
Qed.


(** C7, as amended.  Once the request body has been read and parsed to
    a value other than [null], the handler always responds, with status
    200 or 500.  An error thrown inside the guarded block is caught and
    answered with status 500 and the body
    [{error: e.message or "failed", items: []}]: so it is when the
    client cannot be made, when the completion call fails, when the
    completion has no choice and when its content does not parse.
    Without an error the
    answer has status 200 and its body is the parsed content of the
    first choice of the completion. *)
Theorem POST_guarded_errors_caught (body : string) (v : json)
    (log : list ChatRequest) :
  req_text w = Normal body ->
  JSON_parse w (or_default body "{}") = Normal v ->
  v <> JNull ->
  exists text,
    destructure_text v log = (Normal text, log)
    /\ (exists r log',
          POST w log = (Normal r, log')
          /\ (status r = 200%nat \/ status r = 500%nat))
    /\ (forall e log',
          tryBlock w text log = (Throw e, log') ->
          POST w log
          = (Normal {| status := 500;
                       body := JObj [("error", JStr (errorMessage e));
                                     ("items", JArr [])] |}, log'))
    /\ (forall e,
          new_OpenAI w (OPENAI_API_KEY w) = Throw e ->
          tryBlock w text log = (Throw e, log))
    /\ (forall client section e,
          new_OpenAI w (OPENAI_API_KEY w) = Normal client ->
          sectionText w text log = (Normal section, log) ->
          create w (chatRequest w section) = Throw e ->
          tryBlock w text log = (Throw e, (log ++ [chatRequest w section])%list))
    /\ (forall client section,
          new_OpenAI w (OPENAI_API_KEY w) = Normal client ->
          sectionText w text log = (Normal section, log) ->
          create w (chatRequest w section) = Normal {| choices := [] |} ->
          exists e,
            tryBlock w text log = (Throw e, (log ++ [chatRequest w section])%list))
    /\ (forall client section c rest e,
          new_OpenAI w (OPENAI_API_KEY w) = Normal client ->
          sectionText w text log = (Normal section, log) ->
          create w (chatRequest w section) = Normal {| choices := c :: rest |} ->
          JSON_parse w (contentOrEmpty (choice_content c)) = Throw e ->
          tryBlock w text log = (Throw e, (log ++ [chatRequest w section])%list))
    /\ (forall r log',
          tryBlock w text log = (Normal r, log') ->
          POST w log = (Normal r, log')
          /\ status r = 200%nat
          /\ exists section c rest,
               create w (chatRequest w section) = Normal {| choices := c :: rest |}
               /\ JSON_parse w (contentOrEmpty (choice_content c))
                  = Normal (ScoreDemo.body r)).
Proof.
  intros Hb Hv Hnn.
  destruct (destructure_text_nonnull v log Hnn) as [text Ht].
  pose proof (POST_parsed body v text log Hb Hv Ht) as HP.
  exists text. split; [exact Ht |]. repeat apply conj.
  - rewrite HP. destruct (tryBlock w text log) as [[r | e] log'] eqn:Hr.
    + exists r, log'. split; [reflexivity |]. left.
      by destruct (tryBlock_normal text log r log' Hr).
    + eexists _, log'. split; [reflexivity |]. by right.
  - intros e log' He. by rewrite HP, He.
  - intros e He. by rewrite tryBlock_steps, He.
  - intros client section e Hc Hs He. by rewrite tryBlock_steps, Hc, Hs, He.
  - intros client section Hc Hs Hres. eexists.
    rewrite tryBlock_steps, Hc, Hs. cbn zeta. rewrite Hres. reflexivity.
  - intros client section c rest e Hc Hs Hres He.
    rewrite tryBlock_steps, Hc, Hs. cbn zeta. rewrite Hres.
    cbn [firstContent choices ret]. by rewrite He.
  - intros r log' Hr. split; [by rewrite HP, Hr |].
    by apply (tryBlock_normal text log r log').
Qed.

End RouteFacts.

Section RouteExamples.

Import ScoreDemo.

(** C7, the claim as stated.  A request body that is not JSON: the
    error of [JSON.parse] is thrown before the guarded block, leaves the
    handler, and no response is built.  The same holds of the body
    [null], whose destructuring throws. *)
Lemma POST_malformed_body_uncaught :
  POST (sampleWorld "not json" (Normal {| choices := [] |})) []
  = (Throw {| message := Some "Unexpected token in JSON" |}, [])
  /\ (exists e, POST (sampleWorld "null" (Normal {| choices := [] |})) []
                = (Throw e, []))
  /\ ~ (exists r log',
          POST (sampleWorld "not json" (Normal {| choices := [] |})) []
          = (Normal r, log')).
Proof.
  split; [reflexivity |]. split; [eexists; reflexivity |].
  intros (r & log' & H). discriminate H.
Qed.

Lemma POST_guarded_errors_caught_witness :
  POST (sampleWorld sampleBody (Throw {| message := Some "Connection error." |})) []
  = (Normal {| status := 500;
               body := JObj [("error", JStr "Connection error.");
                             ("items", JArr [])] |},
     [chatRequest (sampleWorld sampleBody (Throw {| message := Some "Connection error." |}))
                  "Background: ..."])
  /\ POST (sampleWorld sampleBody
             (Normal {| choices := [ {| choice_content := Some sampleContent |} ] |}))
          []
     = (Normal {| status := 200; body := sampleItems |},
        [chatRequest
           (sampleWorld sampleBody
              (Normal {| choices := [ {| choice_content := Some sampleContent |} ] |}))
           "Background: ..."]).
Proof.
  split.
  - destruct (POST_guarded_errors_caught
                (sampleWorld sampleBody
                   (Throw {| message := Some "Connection error." |}))
                sampleBody (JObj [("text", JStr "Background: ...")]) [])
      as (text & Ht & _ & Hcaught & _ & Hcall & _);
      [reflexivity | reflexivity | discriminate |].
    injection Ht as <-.
    apply (Hcaught {| message := Some "Connection error." |}).
    apply (Hcall tt "Background: ..."); reflexivity.
  - destruct (POST_guarded_errors_caught
                (sampleWorld sampleBody
                   (Normal {| choices := [ {| choice_content := Some sampleContent |} ] |}))
                sampleBody (JObj [("text", JStr "Background: ...")]) [])
      as (text & Ht & _ & _ & _ & _ & _ & _ & Hok);
      [reflexivity | reflexivity | discriminate |].
    injection Ht as <-.
    apply (Hok {| status := 200; body := sampleItems |}).
    reflexivity.
Defined.



End RouteExamples.


(** ** Strings *)

Section TextFacts.

Import Text.

Lemma append_cons c (a b : string) : String c a ++ b = String c (a ++ b).
Proof. reflexivity. Qed.

Lemma append_nil (b : string) : "" ++ b = b.
Proof. reflexivity. Qed.

Lemma prefix_app (a s : string) :
  String.prefix a s = true <-> exists b, s = a ++ b.
Proof.
  revert s. induction a as [| c a IH]; intros s; simpl.
  - split; [intros _; exists s; reflexivity | destruct s; reflexivity].
  - destruct s as [| d s].
    + split; [discriminate | intros [b Hb]; discriminate Hb].
    + simpl. destruct (Ascii.ascii_dec c d) as [-> | Hne].
      * rewrite IH. split; intros [b Hb]; exists b.
        -- by rewrite Hb.
        -- by injection Hb.
      * split; [discriminate | intros [b Hb]; injection Hb; congruence].
Qed.

(** [includes] holds when the string is the word between two others. *)
Lemma includes_app (s sub : string) :
  includes s sub = true <-> exists a b, s = a ++ sub ++ b.
Proof.
  induction s as [| c s IH]; cbn [includes].
  - rewrite orb_false_r, prefix_app. split.
    + intros [b Hb]. exists "", b. exact Hb.
    + intros (a & b & H). destruct a; [exists b; exact H | discriminate H].
  - rewrite orb_true_iff, prefix_app, IH. split.
    + intros [[b Hb] | (a & b & H)].
      * exists "", b. exact Hb.
      * exists (String c a), b. simpl. by rewrite H.
    + intros (a & b & H). destruct a as [| d a]; simpl in H.
      * left. exists b. exact H.
      * right. exists a, b. by injection H.
Qed.

Lemma string_length_append (a b : string) :
  String.length (a ++ b) = String.length a + String.length b.
Proof.
  induction a as [| c a IH]; [reflexivity |].
  rewrite append_cons. simpl. by rewrite IH.
Qed.

Lemma substring_app_r (a b : string) :
  substring (String.length a) (String.length b) (a ++ b) = b.
Proof.
  induction a as [| c a IH].
  - rewrite append_nil. simpl.
    induction b as [| d b IHb]; simpl; [reflexivity |]. by rewrite IHb.
  - rewrite append_cons. simpl. exact IH.
Qed.

Lemma substring_all (s : string) : substring 0 (String.length s) s = s.
Proof. induction s as [| c s IH]; simpl; [reflexivity | by rewrite IH]. Qed.

Lemma substring_split (n : nat) (s : string) :
  n <= String.length s ->
  s = substring 0 n s ++ substring n (String.length s - n) s.
Proof.
  revert n. induction s as [| c s IH]; intros n Hn.
  - destruct n; [reflexivity | simpl in Hn; lia].
  - destruct n as [| n].
    + rewrite Nat.sub_0_r, substring_all. reflexivity.
    + simpl. rewrite append_cons. f_equal. apply IH. simpl in Hn. lia.
Qed.

(** [endsWith] holds when the string is another followed by the suffix. *)
Lemma endsWith_app (s suffix : string) :
  endsWith s suffix = true <-> exists a, s = a ++ suffix.
Proof.
  unfold endsWith. rewrite andb_true_iff, Nat.leb_le, String.eqb_eq. split.
  - intros [Hle Hsub].
    exists (substring 0 (String.length s - String.length suffix) s).
    pose proof (substring_split (String.length s - String.length suffix) s
                  ltac:(lia)) as E.
    replace (String.length s - (String.length s - String.length suffix))
      with (String.length suffix) in E by lia.
    by rewrite Hsub in E.
  - intros [a ->]. rewrite string_length_append. split; [lia |].
    replace (String.length a + String.length suffix - String.length suffix)
      with (String.length a) by lia.
    apply substring_app_r.
Qed.

Lemma toLowerCase_app (a b : string) :
  toLowerCase (a ++ b) = toLowerCase a ++ toLowerCase b.
Proof.
  induction a as [| c a IH]; [reflexivity |].
  rewrite append_cons. simpl. by rewrite IH, append_cons.
Qed.

Lemma toLowerCase_split (s x y : string) :
  toLowerCase s = x ++ y ->
  exists a b, s = a ++ b /\ toLowerCase a = x /\ toLowerCase b = y.
Proof.
  revert s. induction x as [| c x IH]; intros s H.
  - exists "", s. repeat split. exact H.
  - destruct s as [| d s]; [discriminate H |].
    rewrite append_cons in H. simpl in H. injection H as Hc Hs.
    destruct (IH s Hs) as (a & b & -> & Ha & Hb).
    exists (String d a), b. rewrite append_cons. simpl. by rewrite Hc, Ha, Hb.
Qed.

(** Two numbers with the same decimal numeral are equal. *)
Lemma decimal_inj (n m : nat) : decimal n = decimal m -> n = m.
Proof.
  unfold decimal. intros H.
  assert (E : Some (Nat.to_uint n) = Some (Nat.to_uint m)).
  { rewrite <- !NilEmpty.usu. by rewrite H. }
  injection E as E.
  rewrite <- (Unsigned.of_to n), <- (Unsigned.of_to m). by rewrite E.
Qed.

Lemma replaceRuns_clean (inRun : bool) (s : string) (c : ascii) :
  In c (list_ascii_of_string (replaceRuns inRun s)) -> isWhiteSpace c = false.
Proof.
  revert inRun. induction s as [| d s IH]; intros inRun; simpl; [intros [] |].
  destruct (isWhiteSpace d) eqn:Hd.
  - destruct inRun; [apply IH |]. simpl. intros [<- | H]; [reflexivity | by eapply IH].
  - simpl. intros [<- | H]; [exact Hd | by eapply IH].
Qed.

Lemma replaceRuns_same (inRun : bool) (s : string) :
  (forall c, In c (list_ascii_of_string s) -> isWhiteSpace c = false) ->
  replaceRuns inRun s = s.
Proof.
  revert inRun. induction s as [| d s IH]; intros inRun H; simpl; [reflexivity |].
  rewrite (H d) by (by left). f_equal. apply IH. intros c Hc. apply H. by right.
Qed.

Lemma replaceWhiteSpace_nonempty (s : string) :
  s <> "" -> replaceWhiteSpace s <> "".
Proof.
  destruct s as [| d s]; [done |]. intros _. unfold replaceWhiteSpace. simpl.
  by destruct (isWhiteSpace d).
Qed.

End TextFacts.

(** ** More on the weighted score *)

Section ScoreInputs.

Import Num Evaluator.

Context {N : Type} {num : Number N}.

Lemma fold_left_ext_in {A B} (f g : A -> B -> A) (l : list B) (a : A) :
  (forall acc x, In x l -> f acc x = g acc x) ->
  fold_left f l a = fold_left g l a.
Proof.
  revert a. induction l as [| x l IH]; intros a H; simpl; [reflexivity |].
  rewrite (H a x) by (by left). apply IH. intros acc y Hy. apply H. by right.
Qed.

Lemma overallScore_agree config (ratings ratings' : gmap string Rating) :
  (forall cat c, In cat (categories config) -> In c (criteria cat) ->
     ratings !! c_id c = ratings' !! c_id c) ->
  overallScore config ratings = overallScore config ratings'.
Proof.
  intros H. unfold overallScore.
  assert (E : total ratings (categories config)
              = total ratings' (categories config)); [| by rewrite E].
  unfold total. apply fold_left_ext_in. intros acc cat Hcat.
  assert (Ec : catScore ratings cat = catScore ratings' cat);
    [| by rewrite Ec].
  unfold catScore. apply fold_left_ext_in. intros acc' c Hc.
  unfold ratingOf. by rewrite (H cat c Hcat Hc).
Qed.

(** In every number system the score reads the rating map only at the
    ids of the criteria of the configuration: two maps that agree
    there score the same, and rating an id that no criterion carries
    leaves the score as it was. *)
Theorem overallScore_listed_ratings (config : SolicitationConfig)
    (ratings ratings' : gmap string Rating) :
  ((forall cat c, In cat (categories config) -> In c (criteria cat) ->
      ratings !! c_id c = ratings' !! c_id c) ->
   overallScore config ratings = overallScore config ratings')
  /\ (forall id val,
        (forall cat c, In cat (categories config) -> In c (criteria cat) ->
           c_id c <> id) ->
        overallScore config (<[ id := val ]> ratings) = overallScore config ratings).
Proof.
  split; [apply overallScore_agree |].
  intros id val Hid. apply overallScore_agree. intros cat c Hcat Hc.
  apply lookup_insert_ne. intros E. by apply (Hid cat c Hcat Hc).
Qed.

Lemma forallb_false_exists {A} (p : A -> bool) (l : list A) :
  forallb p l = false <-> exists x, In x l /\ p x = false.
Proof.
  induction l as [| a l IH]; simpl.
  - split; [discriminate | by intros (x & [] & _)].
  - destruct (p a) eqn:Ha; simpl.
    + rewrite IH. split.
      * intros (x & Hin & Hx). exists x. auto.
      * intros (x & [-> | Hin] & Hx); [congruence | by exists x].
    + split; [| reflexivity]. intros _. exists a. auto.
Qed.

(** In every number system the score is the [NaN] of a read that is no
    rating exactly when some criterion of the configuration has no
    rating and carries an id that every object inherits, such as
    [toString] or [constructor]. *)
Theorem overallScore_unrated_inherited (config : SolicitationConfig)
    (ratings : gmap string Rating) :
  overallScore config ratings = None <->
  exists cat c, In cat (categories config) /\ In c (criteria cat)
    /\ ratings !! c_id c = None /\ inherited (c_id c) = true.
Proof.
  rewrite overallScore_rated.
  destruct (allRated ratings (categories config)) eqn:Hall.
  - split; [discriminate |]. intros (cat & c & Hcat & Hc & Hnone & Hinh).
    exfalso. apply readsRatings_allRated in Hall.
    rewrite (Hall cat c Hcat Hc Hnone) in Hinh. discriminate Hinh.
  - split; [intros _ | reflexivity].
    unfold allRated in Hall.
    apply forallb_false_exists in Hall as (cat & Hcat & Hall).
    apply forallb_false_exists in Hall as (c & Hc & Hr).
    exists cat, c. split; [exact Hcat |]. split; [exact Hc |].
    unfold rated, ratingOf in Hr.
    destruct (ratings !! c_id c); [discriminate Hr |].
    by destruct (inherited (c_id c)).
Qed.

End ScoreInputs.

(** ** More on the mandatory gate *)

Section GateMore.

Import Num Evaluator.

Context {N : Type} {num : Number N}.

Lemma mandatory_loop_ids (g g' : MandatoryCriterion -> bool) ms ms'
    (acc : gmap string bool) :
  (forall m m', m_id m = m_id m' -> g m = g' m') ->
  map m_id ms = map m_id ms' ->
  fold_left (fun map m => assign (m_id m) (g m) map) ms acc
  = fold_left (fun map m => assign (m_id m) (g' m) map) ms' acc.
Proof.
  intros Hg. revert ms' acc.
  induction ms as [| m ms IH]; intros [| m' ms'] acc H;
    try discriminate H; [reflexivity |].
  simpl in *. injection H as Hid Hrest.
  rewrite Hid, (Hg m m' Hid). by apply IH.
Qed.

(** What the result map is computed from: the ids of the mandatory
    list, the three caps of the configuration, and five fields of the
    proposal metadata.  The label, the extractor key, the limit and the
    required flag of a criterion play no part in it, nor does any other
    field of the configuration or of the metadata. *)
Theorem mandatoryResults_inputs (config config' : SolicitationConfig)
    (proposalMeta proposalMeta' : ProposalMeta) :
  map m_id (mandatory config) = map m_id (mandatory config') ->
  costCapUSD config = costCapUSD config' ->
  maxPoPMonths config = maxPoPMonths config' ->
  pagePolicy config ≫= techVolumeMaxPages
  = pagePolicy config' ≫= techVolumeMaxPages ->
  costTotal proposalMeta = costTotal proposalMeta' ->
  popMonths proposalMeta = popMonths proposalMeta' ->
  tvPages proposalMeta = tvPages proposalMeta' ->
  cmSigned proposalMeta = cmSigned proposalMeta' ->
  rcfPresent proposalMeta = rcfPresent proposalMeta' ->
  mandatoryResults config proposalMeta = mandatoryResults config' proposalMeta'.
Proof.
  intros Hids Hc Hp Hg Hcost Hpop Htv Hcm Hrcf. unfold mandatoryResults.
  apply mandatory_loop_ids; [| exact Hids].
  intros m m' Hid. unfold gate.
  by rewrite Hid, Hc, Hp, Hg, Hcost, Hpop, Htv, Hcm, Hrcf.
Qed.

Lemma mandatory_loop_Permutation config proposalMeta ms ms'
    (acc : gmap string bool) :
  Permutation ms ms' ->
  fold_left (fun map m => assign (m_id m) (gate config proposalMeta m) map) ms acc
  = fold_left (fun map m => assign (m_id m) (gate config proposalMeta m) map) ms' acc.
Proof.
  intros HP. revert acc.
  induction HP as [| x l l' _ IH | x y l | l l' l'' _ IH1 _ IH2]; intros acc.
  - reflexivity.
  - simpl. apply IH.
  - simpl. f_equal.
    destruct (decide (m_id x = m_id y)) as [E | NE].
    + by rewrite E, (gate_id config proposalMeta x y E).
    + unfold assign.
      destruct (String.eqb_spec (m_id x) "__proto__"),
        (String.eqb_spec (m_id y) "__proto__"); try reflexivity.
      by apply insert_insert_ne.
  - by rewrite IH1, IH2.
Qed.

(** Listing the mandatory criteria in another order changes neither
    the result map, nor the disqualified flag, nor the count of
    passing criteria. *)
Theorem mandatory_gate_reorder (config : SolicitationConfig)
    (proposalMeta : ProposalMeta) (ms : list MandatoryCriterion) :
  Permutation (mandatory config) ms ->
  mandatoryResults (with_mandatory ms config) proposalMeta
  = mandatoryResults config proposalMeta
  /\ disqualified (with_mandatory ms config) proposalMeta
     = disqualified config proposalMeta
  /\ mandatoryPassCount (with_mandatory ms config) proposalMeta
     = mandatoryPassCount config proposalMeta.
Proof.
  intros HP.
  assert (E : mandatoryResults (with_mandatory ms config) proposalMeta
              = mandatoryResults config proposalMeta).
  { unfold mandatoryResults. cbn [mandatory with_mandatory].
    symmetry.
    exact (mandatory_loop_Permutation config proposalMeta _ _ ∅ HP). }
  split; [exact E |]. split.
  - unfold disqualified. rewrite E. cbn [mandatory with_mandatory].
    apply eq_true_iff_eq. rewrite !existsb_exists.
    split; intros (m & Hin & H); exists m; split; try exact H.
    + apply (Permutation_in _ (Permutation_sym HP) Hin).
    + apply (Permutation_in _ HP Hin).
  - unfold mandatoryPassCount. by rewrite E.
Qed.

(** A cap that is missing or 0 switches its test off, in a number
    system in which 0 is falsy. *)
Lemma gate_without_cap_any config proposalMeta m :
  truthy (lit 0) = false ->
  In m (mandatory config) ->
  (m_id m = "costCap" -> noCap (costCapUSD config) ->
   mandatoryResults config proposalMeta !! "costCap" = Some true)
  /\ (m_id m = "popCap" -> noCap (maxPoPMonths config) ->
      mandatoryResults config proposalMeta !! "popCap" = Some true)
  /\ (m_id m = "pages" -> noCap (pagePolicy config ≫= techVolumeMaxPages) ->
      mandatoryResults config proposalMeta !! "pages" = Some true).
Proof.
  intros H0 Hin.
  assert (Hcap : forall cap, noCap cap -> truthy_cap cap = false).
  { intros cap [-> | ->]; [reflexivity | exact H0]. }
  destruct (gate_by_id config proposalMeta m Hin) as (Hc & Hp & Hg & _).
  repeat split; intros Hid Hno.
  - by rewrite (Hc Hid), (Hcap _ Hno).
  - by rewrite (Hp Hid), (Hcap _ Hno).
  - by rewrite (Hg Hid), (Hcap _ Hno).
Qed.

Lemma size_ids_le (l : list string) : size (list_to_set l : gset string) <= length l.
Proof.
  induction l as [| x l IH].
  - by rewrite list_to_set_nil, size_empty.
  - rewrite list_to_set_cons, size_union_alt, size_singleton.
    assert (size (list_to_set l ∖ {[x]} : gset string)
            <= size (list_to_set l : gset string))
      by (apply subseteq_size; intros y Hy;
          by apply elem_of_difference in Hy as [? _]).
    simpl. lia.
Qed.

Lemma size_ids_NoDup (l : list string) :
  size (list_to_set l : gset string) = length l -> NoDup l.
Proof.
  induction l as [| x l IH]; intros H.
  - constructor.
  - destruct (decide (x ∈ l)) as [Hin | Hnin].
    + exfalso.
      assert (E : ({[x]} ∪ list_to_set l : gset string) = list_to_set l).
      { apply set_eq. intros y.
        rewrite elem_of_union, elem_of_singleton, !elem_of_list_to_set.
        split; [intros [-> | ?]; done | by right]. }
      rewrite list_to_set_cons, E in H. pose proof (size_ids_le l).
      simpl in H. lia.
    + constructor; [exact Hnin |]. apply IH.
      rewrite list_to_set_cons, size_union in H.
      * rewrite size_singleton in H. simpl in H. lia.
      * intros y. rewrite elem_of_singleton, elem_of_list_to_set. by intros ->.
Qed.

(** The keys of the result map are the ids of the mandatory list
    other than [__proto__]. *)
Lemma mandatory_loop_keys config proposalMeta ms (k : string) :
  is_Some (fold_left
             (fun map m => assign (m_id m) (gate config proposalMeta m) map)
             ms (∅ : gmap string bool) !! k)
  <-> In k (map m_id ms) /\ k <> "__proto__".
Proof.
  induction ms as [| x ms IH] using rev_ind.
  - simpl. rewrite lookup_empty. split; [by intros [? ?] | by intros [[] _]].
  - rewrite fold_left_app, map_app, in_app_iff. simpl.
    rewrite assign_lookup. case_decide as H.
    + destruct H as [<- NP]. split; [auto | by eexists].
    + rewrite IH. split; [tauto |].
      intros [[Hin | [E | []]] NP]; [tauto |].
      exfalso. apply H. split; [exact E | by rewrite E].
Qed.

Lemma mandatoryResults_keys config proposalMeta :
  dom (mandatoryResults config proposalMeta)
  = (list_to_set (map m_id (mandatory config)) ∖ {[ "__proto__" ]} : gset string).
Proof.
  apply set_eq. intros k.
  rewrite elem_of_dom, elem_of_difference, elem_of_list_to_set,
    elem_of_singleton, list_elem_of_In.
  apply mandatory_loop_keys.
Qed.

Lemma size_without (X : gset string) (k : string) :
  size (X ∖ {[ k ]}) <= size X /\ (size (X ∖ {[ k ]}) = size X -> k ∉ X).
Proof.
  split.
  - apply subseteq_size. intros y Hy. by apply elem_of_difference in Hy as [? _].
  - intros E Hk.
    assert (HX : X = {[ k ]} ∪ X ∖ {[ k ]}).
    { apply set_eq. intros y.
      rewrite elem_of_union, elem_of_difference, elem_of_singleton.
      destruct (decide (y = k)) as [-> | NE]; tauto. }
    assert (Hs : size X = S (size (X ∖ {[ k ]}))).
    { rewrite HX at 1. rewrite size_union, size_singleton; [reflexivity |].
      intros y. rewrite elem_of_singleton, elem_of_difference, elem_of_singleton.
      tauto. }
    lia.
Qed.

Lemma mandatoryResults_size config proposalMeta :
  size (mandatoryResults config proposalMeta) <= mandatoryTotal config
  /\ (size (mandatoryResults config proposalMeta) = mandatoryTotal config
      -> NoDup (map m_id (mandatory config))
         /\ ~ In "__proto__" (map m_id (mandatory config))).
Proof.
  unfold mandatoryTotal. rewrite <- size_dom, mandatoryResults_keys.
  rewrite <- (length_map m_id).
  pose proof (size_ids_le (map m_id (mandatory config))) as Hle.
  destruct (size_without (list_to_set (map m_id (mandatory config)))
              "__proto__") as [Hw Hk].
  split; [lia |]. intros E. split.
  - apply size_ids_NoDup. lia.
  - rewrite <- list_elem_of_In, <- (elem_of_list_to_set (C:=gset string)).
    apply Hk. lia.
Qed.

Lemma mandatoryResults_size_NoDup config proposalMeta :
  NoDup (map m_id (mandatory config)) ->
  ~ In "__proto__" (map m_id (mandatory config)) ->
  size (mandatoryResults config proposalMeta) = mandatoryTotal config.
Proof.
  intros H NP. unfold mandatoryTotal.
  rewrite <- size_dom, mandatoryResults_keys, <- (length_map m_id).
  rewrite <- (size_list_to_set (C:=gset string)) by exact H.
  f_equal. apply set_eq. intros y.
  rewrite elem_of_difference, elem_of_singleton, elem_of_list_to_set,
    list_elem_of_In.
  split; [tauto |]. intros Hy. split; [exact Hy |]. by intros ->.
Qed.

Lemma passCount_le_size config proposalMeta :
  mandatoryPassCount config proposalMeta
  <= size (mandatoryResults config proposalMeta).
Proof.
  unfold mandatoryPassCount.
  etransitivity; [apply filter_length_le |].
  by rewrite length_map, length_map_to_list.
Qed.

(** The count shown as "passing" never exceeds the number of mandatory
    criteria, and stays below it as soon as two criteria share an id:
    the result map then holds fewer entries than the list. *)
Theorem mandatoryPassCount_le_total (config : SolicitationConfig)
    (proposalMeta : ProposalMeta) :
  mandatoryPassCount config proposalMeta <= mandatoryTotal config
  /\ (~ NoDup (map m_id (mandatory config)) ->
      mandatoryPassCount config proposalMeta < mandatoryTotal config).
Proof.
  pose proof (passCount_le_size config proposalMeta) as H1.
  destruct (mandatoryResults_size config proposalMeta) as [H2 H3].
  split; [lia |]. intros Hdup.
  destruct (decide (size (mandatoryResults config proposalMeta)
                    = mandatoryTotal config)) as [E | NE];
    [by apply H3 in E as [? _] | lia].
Qed.

(** All criteria are counted as passing exactly when their ids are
    pairwise distinct and each is recorded as satisfied; the proposal
    is then not disqualified.  When every criterion is required, the
    ids are distinct and none is [__proto__], the converse holds too:
    the proposal is eligible exactly when all criteria are counted as
    passing. *)
Theorem mandatoryPassCount_all (config : SolicitationConfig)
    (proposalMeta : ProposalMeta) :
  (mandatoryPassCount config proposalMeta = mandatoryTotal config <->
   NoDup (map m_id (mandatory config))
   /\ forall m, In m (mandatory config) ->
        mandatoryResults config proposalMeta !! m_id m = Some true)
  /\ (mandatoryPassCount config proposalMeta = mandatoryTotal config ->
      disqualified config proposalMeta = false)
  /\ ((forall m, In m (mandatory config) -> required m = true) ->
      NoDup (map m_id (mandatory config)) ->
      ~ In "__proto__" (map m_id (mandatory config)) ->
      (disqualified config proposalMeta = false <->
       mandatoryPassCount config proposalMeta = mandatoryTotal config)).
Proof.
  pose proof (passCount_le_size config proposalMeta) as H1.
  destruct (mandatoryResults_size config proposalMeta) as [H2 H3].
  assert (Hfull : mandatoryPassCount config proposalMeta = mandatoryTotal config ->
            forall m, In m (mandatory config) ->
              mandatoryResults config proposalMeta !! m_id m = Some true).
  { intros E m Hin.
    assert (Hall : forallb (fun ok : bool => ok)
              (map snd (map_to_list (mandatoryResults config proposalMeta))) = true).
    { apply filter_length_forallb. fold (mandatoryPassCount config proposalMeta).
      rewrite length_map, length_map_to_list. lia. }
    rewrite forallb_forall in Hall.
    destruct (mandatoryResults config proposalMeta !! m_id m) as [b |] eqn:Hb.
    - f_equal. apply (Hall b). apply in_map_iff. exists (m_id m, b). split; [done |].
      apply list_elem_of_In, elem_of_map_to_list. exact Hb.
    - exfalso.
      destruct H3 as [_ NP]; [lia |].
      assert (Hs : is_Some (mandatoryResults config proposalMeta !! m_id m)).
      { apply mandatory_loop_keys. split; [apply in_map; exact Hin |].
        intros E'. apply NP. rewrite <- E'. by apply in_map. }
      rewrite Hb in Hs. by destruct Hs. }
  assert (Hproto : (forall m, In m (mandatory config) ->
               mandatoryResults config proposalMeta !! m_id m = Some true) ->
            ~ In "__proto__" (map m_id (mandatory config))).
  { intros Hall Hin. apply in_map_iff in Hin as (m & E & Hin).
    specialize (Hall m Hin). rewrite E, mandatoryResults_proto in Hall.
    discriminate Hall. }
  assert (Hconv : NoDup (map m_id (mandatory config)) ->
            (forall m, In m (mandatory config) ->
               mandatoryResults config proposalMeta !! m_id m = Some true) ->
            mandatoryPassCount config proposalMeta = mandatoryTotal config).
  { intros Hnd Hall.
    rewrite <- (mandatoryResults_size_NoDup _ proposalMeta Hnd (Hproto Hall)).
    unfold mandatoryPassCount.
    rewrite <- length_map_to_list, <- (length_map snd).
    f_equal. apply forallb_filter_id. apply forallb_forall.
    intros b Hb. apply in_map_iff in Hb as ([k b'] & <- & Hkb). simpl.
    apply list_elem_of_In, elem_of_map_to_list in Hkb.
    assert (Hk : In k (map m_id (mandatory config)) /\ k <> "__proto__").
    { apply (mandatory_loop_keys config proposalMeta). by eexists. }
    destruct Hk as [Hk _].
    apply in_map_iff in Hk as (m & <- & Hin).
    rewrite (Hall m Hin) in Hkb. by injection Hkb. }
  assert (Hok : mandatoryPassCount config proposalMeta = mandatoryTotal config ->
            disqualified config proposalMeta = false).
  { intros E. apply not_true_is_false. intros Hd.
    apply disqualified_true in Hd as (m & Hin & _ & Hf).
    rewrite (Hfull E m Hin) in Hf. discriminate Hf. }
  split; [split |]; [| | split].
  - intros E. split; [apply H3; lia | by apply Hfull].
  - intros [Hnd Hall]. by apply Hconv.
  - exact Hok.
  - intros Hreq Hnd NP. split; [| exact Hok].
    assert (Hne : forall m, In m (mandatory config) -> m_id m <> "__proto__").
    { intros m Hin E. apply NP. rewrite <- E. by apply in_map. }
    intros Hd. apply Hconv; [exact Hnd |]. intros m Hin.
    rewrite (mandatoryResults_lookup config proposalMeta m Hin (Hne m Hin)).
    destruct (gate config proposalMeta m) eqn:Hg; [reflexivity |].
    exfalso. apply not_true_iff_false in Hd. apply Hd.
    apply disqualified_true. exists m. split; [exact Hin |].
    split; [by apply Hreq |].
    by rewrite (mandatoryResults_lookup config proposalMeta m Hin (Hne m Hin)), Hg.
Qed.

End GateMore.

Section GateMoreExamples.

Import Num Evaluator.

(** A cap that the configuration leaves out, or gives as 0, is no
    cap: the cost, duration and page criteria are then recorded as
    satisfied whatever the proposal states, in exact arithmetic and in
    binary64 alike. *)
Theorem gate_without_cap (config : SolicitationConfig)
    (proposalMeta : ProposalMeta) (m : MandatoryCriterion) :
  In m (mandatory config) ->
  (m_id m = "costCap" -> noCap (costCapUSD config) ->
   mandatoryResults (N:=Q) config proposalMeta !! "costCap" = Some true
   /\ mandatoryResults (N:=float) config proposalMeta !! "costCap" = Some true)
  /\ (m_id m = "popCap" -> noCap (maxPoPMonths config) ->
      mandatoryResults (N:=Q) config proposalMeta !! "popCap" = Some true
      /\ mandatoryResults (N:=float) config proposalMeta !! "popCap" = Some true)
  /\ (m_id m = "pages" -> noCap (pagePolicy config ≫= techVolumeMaxPages) ->
      mandatoryResults (N:=Q) config proposalMeta !! "pages" = Some true
      /\ mandatoryResults (N:=float) config proposalMeta !! "pages" = Some true).
Proof.
  intros Hin.
  assert (ZQ : truthy (N:=Q) (lit 0) = false) by reflexivity.
  assert (ZF : truthy (N:=float) (lit 0) = false) by reflexivity.
  destruct (gate_without_cap_any (N:=Q) config proposalMeta m ZQ Hin)
    as (Q1 & Q2 & Q3).
  destruct (gate_without_cap_any (N:=float) config proposalMeta m ZF Hin)
    as (F1 & F2 & F3).
  repeat split; auto.
Qed.

Lemma gate_without_cap_witness :
  mandatoryResults (N:=Q) (with_caps (Some 0%Q) None None DEFAULT_CONFIG)
    oversizedProposalMeta !! "costCap" = Some true
  /\ mandatoryResults (N:=float) (with_caps (Some 0%Q) None None DEFAULT_CONFIG)
       oversizedProposalMeta !! "costCap" = Some true.
Proof.
  destruct (gate_without_cap (with_caps (Some 0%Q) None None DEFAULT_CONFIG)
              oversizedProposalMeta
              (mkMandatory "costCap" "SBIR cost ≤ $1.25M" "cost_total"
                 (Some {| kind := KNumber; value := 1250000 |}) true))
    as (H & _).
  - left. reflexivity.
  - apply H; [reflexivity | right; reflexivity].
Defined.

Lemma mandatoryResults_inputs_witness :
  mandatoryResults (N:=float) DEFAULT_CONFIG uploadedProposalMeta
  = mandatoryResults (N:=float)
      (with_mandatory (map optional_unlimited (mandatory DEFAULT_CONFIG))
         (with_categories [] DEFAULT_CONFIG))
      (with_tvPages 14 (with_costTotal 1180000 initialProposalMeta)).
Proof.
  apply (mandatoryResults_inputs (N:=float) DEFAULT_CONFIG
           (with_mandatory (map optional_unlimited (mandatory DEFAULT_CONFIG))
              (with_categories [] DEFAULT_CONFIG))
           uploadedProposalMeta
           (with_tvPages 14 (with_costTotal 1180000 initialProposalMeta)));
    reflexivity.
Defined.

Lemma mandatory_gate_reorder_witness :
  mandatoryResults (N:=float)
    (with_mandatory (rev (mandatory DEFAULT_CONFIG)) DEFAULT_CONFIG)
    uploadedProposalMeta
  = mandatoryResults (N:=float) DEFAULT_CONFIG uploadedProposalMeta.
Proof.
  apply (mandatory_gate_reorder (N:=float) DEFAULT_CONFIG uploadedProposalMeta
           (rev (mandatory DEFAULT_CONFIG))).
  apply Permutation_rev.
Defined.

End GateMoreExamples.

(** ** The upload stub *)

Section UploadFacts.

Import Num Text Evaluator.

Lemma includes_mentions name word :
  includes (toLowerCase name) word = true <-> mentions name word.
Proof.
  rewrite includes_app. split.
  - intros (x & y & H).
    destruct (toLowerCase_split _ _ _ H) as (a & r & -> & Ha & Hr).
    destruct (toLowerCase_split _ _ _ Hr) as (k & b & -> & Hk & Hb).
    by exists a, k, b.
  - intros (a & k & b & -> & Hk).
    exists (toLowerCase a), (toLowerCase b).
    by rewrite !toLowerCase_app, Hk.
Qed.

Lemma endsWith_hasExtension name ext :
  endsWith (toLowerCase name) ext = true <-> hasExtension name ext.
Proof.
  rewrite endsWith_app. split.
  - intros (x & H).
    destruct (toLowerCase_split _ _ _ H) as (a & e & -> & Ha & He).
    by exists a, e.
  - intros (a & e & -> & He). exists (toLowerCase a).
    by rewrite toLowerCase_app, He.
Qed.

Lemma looksLikeTechVolume_named name :
  looksLikeTechVolume (toLowerCase name) = true <-> namedTechVolume name.
Proof.
  unfold looksLikeTechVolume, namedTechVolume.
  rewrite !orb_true_iff, !includes_mentions, endsWith_hasExtension. tauto.
Qed.

Lemma looksLikeCostVolume_named name :
  looksLikeCostVolume (toLowerCase name) = true <-> namedCostVolume name.
Proof.
  unfold looksLikeCostVolume, namedCostVolume.
  rewrite !orb_true_iff, !includes_mentions, endsWith_hasExtension. tauto.
Qed.

(** The upload stub does nothing without a file.  With one, it sets
    the page count to 14 exactly when the name holds "tech" or
    "volume2" or ends in ".pdf", and the cost to 1,180,000 exactly when
    the name holds "cost" or "volume3" or ends in ".xlsx", in any
    letter case; it writes nothing else. *)
Theorem handleFileChange_effect (files : option (list File)) (st : AppState) :
  let st' := handleFileChange files st in
  match files ≫= head with
  | None => st' = st
  | Some file =>
      (namedTechVolume (f_name file) -> tvPages (proposalMeta st') = 14%Q)
      /\ (~ namedTechVolume (f_name file) ->
          tvPages (proposalMeta st') = tvPages (proposalMeta st))
      /\ (namedCostVolume (f_name file) ->
          costTotal (proposalMeta st') = 1180000%Q)
      /\ (~ namedCostVolume (f_name file) ->
          costTotal (proposalMeta st') = costTotal (proposalMeta st))
      /\ st' = setProposalMeta
                 (fun s => with_costTotal (costTotal (proposalMeta st'))
                             (with_tvPages (tvPages (proposalMeta st')) s)) st
  end.
Proof.
  unfold handleFileChange. destruct (files ≫= head) as [file |]; [| reflexivity].
  cbv zeta.
  rewrite <- looksLikeTechVolume_named, <- looksLikeCostVolume_named.
  destruct st as [ph ct ot cf ou [t co tn cm tv pop cost rcf fwa v7 pow] ra ms al].
  destruct (looksLikeTechVolume _), (looksLikeCostVolume _); cbn;
    repeat split; intros; congruence.
Qed.

(** Uploads commute, and uploading the same file twice is uploading it
    once. *)
Theorem handleFileChange_commute (files files' : option (list File))
    (st : AppState) :
  handleFileChange files (handleFileChange files' st)
  = handleFileChange files' (handleFileChange files st)
  /\ handleFileChange files (handleFileChange files st)
     = handleFileChange files st.
Proof.
  unfold handleFileChange.
  destruct (files ≫= head) as [file |], (files' ≫= head) as [file' |];
    try (split; reflexivity); cbv zeta;
    destruct (looksLikeTechVolume (toLowerCase (f_name file)));
    destruct (looksLikeCostVolume (toLowerCase (f_name file)));
    try destruct (looksLikeTechVolume (toLowerCase (f_name file')));
    try destruct (looksLikeCostVolume (toLowerCase (f_name file')));
    split; reflexivity.
Qed.

Lemma handleFileChange_config files st :
  config (handleFileChange files st) = config st.
Proof.
  unfold handleFileChange. destruct (files ≫= head) as [file |]; [| reflexivity].
  cbv zeta. by destruct (looksLikeTechVolume _), (looksLikeCostVolume _).
Qed.

Lemma handleFileChange_tvPages files file st :
  files ≫= head = Some file -> namedTechVolume (f_name file) ->
  tvPages (proposalMeta (handleFileChange files st)) = 14%Q.
Proof.
  intros Hf Hn. unfold handleFileChange. rewrite Hf. cbv zeta.
  apply looksLikeTechVolume_named in Hn. rewrite Hn.
  by destruct (looksLikeCostVolume _).
Qed.

Lemma handleFileChange_costTotal files file st :
  files ≫= head = Some file -> namedCostVolume (f_name file) ->
  costTotal (proposalMeta (handleFileChange files st)) = 1180000%Q.
Proof.
  intros Hf Hn. unfold handleFileChange. rewrite Hf. cbv zeta.
  apply looksLikeCostVolume_named in Hn. rewrite Hn.
  by destruct (looksLikeTechVolume _).
Qed.

(** After the upload of a file named as a technical volume the page
    criterion is recorded as satisfied under any page cap of 14 or
    more, whatever page count was entered before; likewise the cost
    criterion after the upload of a file named as a cost volume, under
    any cost cap of 1,180,000 or more (exact arithmetic). *)
Theorem upload_meets_caps (files : option (list File)) (file : File)
    (st : AppState) (m : MandatoryCriterion) (cap : Q) :
  files ≫= head = Some file ->
  In m (mandatory (config st)) ->
  let st' := handleFileChange files st in
  (m_id m = "pages" -> namedTechVolume (f_name file) ->
   pagePolicy (config st) ≫= techVolumeMaxPages = Some cap -> (14 <= cap)%Q ->
   mandatoryResults (N:=Q) (config st') (proposalMeta st') !! "pages" = Some true)
  /\ (m_id m = "costCap" -> namedCostVolume (f_name file) ->
      costCapUSD (config st) = Some cap -> (1180000 <= cap)%Q ->
      mandatoryResults (N:=Q) (config st') (proposalMeta st') !! "costCap"
      = Some true).
Proof.
  intros Hf Hin. cbv zeta. rewrite handleFileChange_config.
  destruct (gate_by_id (N:=Q) (config st)
              (proposalMeta (handleFileChange files st)) m Hin)
    as (Hc & _ & Hp & _).
  split.
  - intros Hid Hn Hcap Hle. rewrite (Hp Hid), Hcap.
    rewrite (handleFileChange_tvPages files file st Hf Hn).
    cbn. unfold Exact.nonzero.
    destruct (Qeq_bool cap 0) eqn:E; [apply Qeq_bool_iff in E; lra |].
    cbn. f_equal. by apply Qle_bool_iff.
  - intros Hid Hn Hcap Hle. rewrite (Hc Hid), Hcap.
    rewrite (handleFileChange_costTotal files file st Hf Hn).
    cbn. unfold Exact.nonzero.
    destruct (Qeq_bool cap 0) eqn:E; [apply Qeq_bool_iff in E; lra |].
    cbn. f_equal. by apply Qle_bool_iff.
Qed.

Lemma upload_meets_caps_witness :
  mandatoryResults (N:=Q) DEFAULT_CONFIG
    (proposalMeta
       (handleFileChange (Some [ {| f_name := "Volume2_Technical.PDF" |} ])
          (setProposalMeta (with_tvPages 40) (initialState "" ""))))
    !! "pages" = Some true.
Proof.
  destruct (upload_meets_caps (Some [ {| f_name := "Volume2_Technical.PDF" |} ])
              {| f_name := "Volume2_Technical.PDF" |}
              (setProposalMeta (with_tvPages 40) (initialState "" ""))
              (mkMandatory "pages"
                 "Technical Volume ≤ 15 pages (excl. Cover/TOC/Glossary)" "tv_pages"
                 (Some {| kind := KPages; value := 15 |}) true)
              15%Q) as (H & _).
  - reflexivity.
  - simpl. tauto.
  - apply H.
    + reflexivity.
    + right. right. exists "Volume2_Technical", ".PDF". split; reflexivity.
    + reflexivity.
    + by vm_compute.
Defined.

End UploadFacts.

(** ** Sessions: what holds whatever the user does *)

Section SessionFacts.

Import Text Evaluator.

Variable JSON_parse_config : string -> option SolicitationConfig.
Variable JSON_parse_catalog : string -> option OUSDRECatalog.

Local Notation "'runAction'" :=
  (Evaluator.runAction JSON_parse_config JSON_parse_catalog).
Local Notation "'run'" := (Evaluator.run JSON_parse_config JSON_parse_catalog).

Lemma numberedIds_NoDup n : NoDup (numberedIds n).
Proof.
  unfold numberedIds. apply (NoDup_fmap_2_strong _).
  - intros i j _ _ H. apply decimal_inj. by injection H.
  - apply NoDup_seq.
Qed.

Lemma numbered_add ms : numbered ms -> numbered (ms ++ [newMilestone (length ms)]).
Proof.
  unfold numbered, numberedIds. intros H.
  rewrite map_app, length_app, H. simpl.
  rewrite seq_app, map_app. simpl. by rewrite Nat.add_1_r.
Qed.

Lemma editWhere_ids id f ms :
  (forall x, ms_id (f x) = ms_id x) ->
  map ms_id (editWhere id f ms) = map ms_id ms.
Proof.
  intros Hf. unfold editWhere. rewrite map_map. apply map_ext.
  intros x. destruct (ms_id x =? id)%string; [apply Hf | reflexivity].
Qed.

Lemma editWhere_length id f ms : length (editWhere id f ms) = length ms.
Proof. apply length_map. Qed.

Lemma numbered_edit id f ms :
  (forall x, ms_id (f x) = ms_id x) -> numbered ms -> numbered (editWhere id f ms).
Proof.
  intros Hf H. unfold numbered. by rewrite editWhere_ids, editWhere_length.
Qed.

(** Only the milestone handlers write the milestone list. *)
Lemma runAction_milestones a st :
  milestones (runAction a st)
  = match a with
    | OnMilestones a => milestones (runMilestoneAction a st)
    | _ => milestones st
    end.
Proof.
  destruct a; try reflexivity; cbn [runAction].
  - unfold handleLoadConfig. by destruct (JSON_parse_config _).
  - unfold handleLoadOUSDRE. by destruct (JSON_parse_catalog _).
  - unfold handleFileChange. destruct (files ≫= head); [| reflexivity].
    cbv zeta. by destruct (looksLikeTechVolume _), (looksLikeCostVolume _).
Qed.

Lemma numbered_step a st :
  numbered (milestones st) -> numbered (milestones (runAction a st)).
Proof.
  intros H. rewrite runAction_milestones.
  destruct a as [| | | | | | | | | | | | | | | | | | []]; try exact H; cbn;
    first [by apply numbered_add | by apply numbered_edit].
Qed.

Lemma length_step a st :
  length (milestones st) <= length (milestones (runAction a st)).
Proof.
  rewrite runAction_milestones.
  destruct a as [| | | | | | | | | | | | | | | | | | []]; try lia; cbn;
    rewrite ?length_app, ?editWhere_length; lia.
Qed.

Lemma numbered_run acts st :
  numbered (milestones st) ->
  numbered (milestones (run acts st))
  /\ length (milestones st) <= length (milestones (run acts st)).
Proof.
  unfold Evaluator.run. revert st.
  induction acts as [| a acts IH]; intros st H; simpl.
  - split; [exact H | lia].
  - destruct (IH (runAction a st) (numbered_step a st H)) as [H1 H2].
    split; [exact H1 |]. pose proof (length_step a st). lia.
Qed.

Lemma numbered_initial t1 t2 : numbered (milestones (initialState t1 t2)).
Proof. reflexivity. Qed.

(** In a state reached from the initial one, no two milestones share
    an id. *)
Lemma reached_NoDup acts t1 t2 :
  NoDup (map ms_id (milestones (run acts (initialState t1 t2)))).
Proof.
  destruct (numbered_run acts _ (numbered_initial t1 t2)) as [H _].
  rewrite H. apply numberedIds_NoDup.
Qed.

(** Whatever the user does, starting from the initial state, the ids
    of the milestone list are [m1], ..., [mn] in this order, hence
    pairwise distinct, and the list never gets shorter than the two
    milestones it starts with. *)
Theorem milestone_ids_numbered (acts : list Action)
    (configText ousdreText : string) :
  let ms := milestones (run acts (initialState configText ousdreText)) in
  map ms_id ms = numberedIds (length ms)
  /\ NoDup (map ms_id ms)
  /\ 2 <= length ms.
Proof.
  destruct (numbered_run acts _ (numbered_initial configText ousdreText))
    as [H1 H2].
  cbv zeta. repeat split.
  - exact H1.
  - apply reached_NoDup.
  - exact H2.
Qed.

(** Where ids are distinct, an edit addressed to the id of the
    milestone at position [i] rewrites that position and no other. *)
Lemma editWhere_insert ms i m f :
  NoDup (map ms_id ms) -> ms !! i = Some m ->
  editWhere (ms_id m) f ms = <[ i := f m ]> ms.
Proof.
  intros Hnd Hi. apply list_eq. intros j. unfold editWhere.
  change (map ?g ms) with (g <$> ms). rewrite list_lookup_fmap.
  destruct (decide (i = j)) as [<- | Hne].
  - rewrite list_lookup_insert_eq by (by eapply lookup_lt_Some).
    rewrite Hi. simpl. by rewrite String.eqb_refl.
  - rewrite list_lookup_insert_ne by done.
    destruct (ms !! j) as [x |] eqn:Hj; [| reflexivity]. simpl.
    destruct (String.eqb_spec (ms_id x) (ms_id m)) as [E | _]; [| reflexivity].
    exfalso. apply Hne.
    eapply (NoDup_lookup (map ms_id ms)); [exact Hnd | |].
    + change (map ms_id ms) with (ms_id <$> ms).
      rewrite list_lookup_fmap, Hi. reflexivity.
    + change (map ms_id ms) with (ms_id <$> ms).
      rewrite list_lookup_fmap, Hj. simpl. by rewrite E.
Qed.

(** In a state reached from the initial one, each of the six edit
    handlers of the card of the milestone at position [i] changes the
    one field it is for, of that milestone, and leaves every other
    milestone as it was. *)
Theorem milestone_edit_one (acts : list Action)
    (configText ousdreText : string) (i : nat) (m : Milestone) :
  let st := run acts (initialState configText ousdreText) in
  milestones st !! i = Some m ->
  (forall v, milestones (onTitleChange m v st)
             = <[ i := with_title v m ]> (milestones st))
  /\ (forall v, milestones (onStartChange m v st)
                = <[ i := with_start v m ]> (milestones st))
  /\ (forall v, milestones (onDescriptionChange m v st)
                = <[ i := with_description v m ]> (milestones st))
  /\ (forall v, milestones (onEndChange m v st)
                = <[ i := with_end v m ]> (milestones st))
  /\ (forall v, milestones (onRdCentricChange m v st)
                = <[ i := with_rdCentric v m ]> (milestones st))
  /\ (forall v, milestones (onMeasurableChange m v st)
                = <[ i := with_measurable v m ]> (milestones st)).
Proof.
  cbv zeta. intros Hi.
  pose proof (reached_NoDup acts configText ousdreText) as Hnd.
  repeat split; intros v; cbn; by apply editWhere_insert.
Qed.

(** In a state reached from the initial one, [addMilestone] appends one
    milestone, labelled "Needs Work"; ticking its Measurable box makes
    it "Strong" and leaves the milestones before it as they were. *)
Theorem added_milestone_badge (acts : list Action)
    (configText ousdreText : string) :
  let st := run acts (initialState configText ousdreText) in
  let n := length (milestones st) in
  let st1 := addMilestone st in
  let st2 := onMeasurableChange (newMilestone n) true st1 in
  milestones st1 = (milestones st ++ [newMilestone n])%list
  /\ milestoneBadge (newMilestone n) = "Needs Work"
  /\ milestones st2
     = (milestones st ++ [with_measurable true (newMilestone n)])%list
  /\ milestoneBadge (with_measurable true (newMilestone n)) = "Strong".
Proof.
  cbv zeta. split; [reflexivity |]. split; [reflexivity |]. split; [| reflexivity].
  pose proof (reached_NoDup (acts ++ [OnMilestones AddMilestone])
                configText ousdreText) as Hnd.
  unfold Evaluator.run in Hnd. rewrite fold_left_app in Hnd. simpl in Hnd.
  fold (run acts (initialState configText ousdreText)) in Hnd.
  set (st := run acts (initialState configText ousdreText)) in *.
  unfold addMilestone, setMilestones in Hnd. cbn [milestones] in Hnd.
  unfold onMeasurableChange, addMilestone, setMilestones. cbn [milestones].
  rewrite (editWhere_insert _ (length (milestones st))); try assumption.
  - replace (length (milestones st)) with (length (milestones st) + 0) at 1 by lia.
    rewrite insert_app_r. reflexivity.
  - rewrite lookup_app_r by lia. by rewrite Nat.sub_diag.
Qed.

(** Only the two loaders write the configuration, the catalog and the
    alerts. *)
Lemma runAction_loaded a st :
  match a with
  | ApplyConfig =>
      runAction a st = handleLoadConfig JSON_parse_config st
  | ApplyOUSDRE =>
      runAction a st = handleLoadOUSDRE JSON_parse_catalog st
  | _ =>
      config (runAction a st) = config st
      /\ ousdre (runAction a st) = ousdre st
      /\ alerts (runAction a st) = alerts st
  end.
Proof.
  destruct a as [| | | | | | | | | | | | | | | | | | []]; try done; cbn [runAction].
  unfold handleFileChange. destruct (files ≫= head); [| done].
  cbv zeta. by destruct (looksLikeTechVolume _), (looksLikeCostVolume _).
Qed.

(** Whatever the user does, starting from the initial state, the
    active configuration is the default one or a document that
    [JSON.parse] accepted, and so is the active catalog; every alert
    shown is one of the two messages of the loaders. *)
Theorem active_config_parsed (acts : list Action)
    (configText ousdreText : string) :
  let st := run acts (initialState configText ousdreText) in
  (config st = DEFAULT_CONFIG
   \/ exists text, JSON_parse_config text = Some (config st))
  /\ (ousdre st = DEFAULT_OUSDRE
      \/ exists text, JSON_parse_catalog text = Some (ousdre st))
  /\ (forall msg, In msg (alerts st) ->
        msg = "Invalid solicitation JSON" \/ msg = "Invalid OUSD(R&E) JSON").
Proof.
  cbv zeta. unfold Evaluator.run.
  set (Inv := fun st : AppState =>
    (config st = DEFAULT_CONFIG
     \/ exists text, JSON_parse_config text = Some (config st))
    /\ (ousdre st = DEFAULT_OUSDRE
        \/ exists text, JSON_parse_catalog text = Some (ousdre st))
    /\ (forall msg, In msg (alerts st) ->
          msg = "Invalid solicitation JSON" \/ msg = "Invalid OUSD(R&E) JSON")).
  assert (Hstep : forall a st, Inv st -> Inv (runAction a st)).
  { intros a st (Hc & Ho & Ha). pose proof (runAction_loaded a st) as H.
    unfold Inv.
    destruct a; try (destruct H as (-> & -> & ->); by repeat split).
    - rewrite H. unfold handleLoadConfig.
      destruct (JSON_parse_config (Evaluator.configText st)) as [parsed |] eqn:E.
      + repeat split; [right; by exists (Evaluator.configText st) | exact Ho | exact Ha].
      + repeat split; [exact Hc | exact Ho |]. cbn [alerts alert].
        intros msg Hin. apply in_app_or in Hin as [Hin | [<- | []]]; auto.
    - rewrite H. unfold handleLoadOUSDRE.
      destruct (JSON_parse_catalog (Evaluator.ousdreText st)) as [parsed |] eqn:E.
      + repeat split; [exact Hc | right; by exists (Evaluator.ousdreText st) | exact Ha].
      + repeat split; [exact Hc | exact Ho |]. cbn [alerts alert].
        intros msg Hin. apply in_app_or in Hin as [Hin | [<- | []]]; auto. }
  assert (Hrun : forall acts st, Inv st ->
            Inv (fold_left (fun s a => runAction a s) acts st)).
  { intros l. induction l as [| a l IH]; intros st H; simpl; [exact H |].
    apply IH. by apply Hstep. }
  apply Hrun. repeat split; [by left | by left | intros msg []].
Qed.

End SessionFacts.

Section SessionExamples.

Import Text Evaluator.

Lemma milestone_edit_one_witness :
  milestones
    (onTitleChange (newMilestone 2) "M3: Flight test"
       (run parseKnownDocument (fun _ => None)
          [Rate "team" Good; OnMilestones AddMilestone] (initialState "" "")))
  = [ firstMilestone; secondMilestone;
      with_title "M3: Flight test" (newMilestone 2) ].
Proof.
  destruct (milestone_edit_one parseKnownDocument (fun _ => None)
              [Rate "team" Good; OnMilestones AddMilestone] "" "" 2
              (newMilestone 2)) as (H & _).
  - reflexivity.
  - exact (H "M3: Flight test").
Defined.

End SessionExamples.

(** ** The export *)

Section ExportFacts.

Import Text Evaluator.

(** The name of the exported file is "readiness_", a stem and ".json".
    The stem is never empty and holds no white space; it is "proposal"
    for an empty title, and the title itself when the title is not
    empty and holds no white space. *)
Theorem exportFileName_stem (proposalMeta : ProposalMeta) :
  exists stem,
    exportFileName proposalMeta = "readiness_" ++ stem ++ ".json"
    /\ stem <> ""
    /\ (forall c, In c (list_ascii_of_string stem) -> isWhiteSpace c = false)
    /\ (title proposalMeta = "" -> stem = "proposal")
    /\ ((forall c, In c (list_ascii_of_string (title proposalMeta)) ->
           isWhiteSpace c = false) ->
        title proposalMeta <> "" -> stem = title proposalMeta).
Proof.
  unfold exportFileName.
  destruct (String.eqb_spec (title proposalMeta) "") as [E | NE].
  - exists "proposal". rewrite E.
    split; [reflexivity |]. split; [done |]. split.
    { intros c Hc. simpl in Hc.
      repeat destruct Hc as [<- | Hc]; try reflexivity. destruct Hc. }
    split; [done |]. done.
  - eexists. split; [reflexivity |].
    split; [by apply replaceWhiteSpace_nonempty |].
    split; [apply replaceRuns_clean |].
    split; [done |].
    intros H _. by apply replaceRuns_same.
Qed.

End ExportFacts.

(** ** More on the scoring route *)

Section RouteMore.

Import ScoreDemo.

Variable w : World.

Lemma destructure_text_log v log c log' :
  destructure_text v log = (c, log') -> log' = log.
Proof. destruct v; simpl; unfold ret, throw; congruence. Qed.

Lemma sectionText_log text log c log' :
  sectionText w text log = (c, log') -> log' = log.
Proof. destruct text as [[] |]; simpl; unfold ret, throw; congruence. Qed.

(** What the guarded block has sent when it ends, whatever the text. *)
Lemma tryBlock_sent_cases text :
  snd (tryBlock w text [])
  = match new_OpenAI w (OPENAI_API_KEY w), sectionText w text [] with
    | Normal _, (Normal section, _) => [chatRequest w section]
    | _, _ => []
    end.
Proof.
  rewrite tryBlock_steps.
  destruct (new_OpenAI w (OPENAI_API_KEY w)); [| reflexivity].
  destruct (sectionText w text []) as [[section | e] log1] eqn:Hs;
    pose proof (sectionText_log _ _ _ _ Hs) as ->; [| reflexivity].
  cbn zeta. destruct (create w (chatRequest w section)) as [res | e]; [| reflexivity].
  unfold firstContent, ret, throw.
  destruct (choices res) as [| c rest]; [reflexivity |].
  by destruct (JSON_parse w (contentOrEmpty (choice_content c))).
Qed.

Lemma POST_sent_cases :
  snd (POST w [])
  = match req_text w with
    | Throw _ => []
    | Normal body =>
        match JSON_parse w (or_default body "{}") with
        | Throw _ => []
        | Normal v =>
            match destructure_text v [] with
            | (Throw _, _) => []
            | (Normal text, _) => snd (tryBlock w text [])
            end
        end
    end.
Proof.
  unfold POST, bind, lift, try_catch, ret.
  destruct (req_text w) as [body | e]; [| reflexivity].
  destruct (JSON_parse w (or_default body "{}")) as [v | e]; [| reflexivity].
  destruct (destructure_text v []) as [[text | e] log] eqn:Hd;
    pose proof (destructure_text_log _ _ _ _ Hd) as ->; [| reflexivity].
  by destruct (tryBlock w text []) as [[r | e] log'].
Qed.


(** An empty request body is read as [{}]: the route answers, and when
    the client can be made it calls the completion service with an
    empty section. *)
Theorem POST_empty_body :
  req_text w = Normal "" ->
  JSON_parse w "{}" = Normal (JObj []) ->
  (exists r, fst (POST w []) = Normal r)
  /\ (forall client, new_OpenAI w (OPENAI_API_KEY w) = Normal client ->
        snd (POST w []) = [chatRequest w ""])
  /\ (forall e, new_OpenAI w (OPENAI_API_KEY w) = Throw e ->
        POST w [] = (Normal (NextResponse_json (failureBody e) 500), [])).
Proof.
  intros Hb Hv.
  assert (HP := POST_parsed w "" (JObj []) None [] Hb Hv eq_refl).
  split; [| split].
  - rewrite HP. destruct (tryBlock w None []) as [[r | e] log']; by eexists.
  - intros client Hc. rewrite POST_sent_cases, Hb. cbn [or_default String.eqb].
    rewrite Hv. cbn [destructure_text getProp ret].
    rewrite tryBlock_sent_cases, Hc. reflexivity.
  - intros e He. rewrite HP, tryBlock_steps, He. reflexivity.
Qed.

(** A response of the handler is a parsed completion with status 200
    or the failure body with status 500. *)
Lemma POST_response log r log' :
  POST w log = (Normal r, log') ->
  (status r = 200%nat
   /\ exists section c rest,
        create w (chatRequest w section) = Normal {| choices := c :: rest |}
        /\ JSON_parse w (contentOrEmpty (choice_content c)) = Normal (body r))
  \/ (status r = 500%nat /\ exists e, body r = failureBody e).
Proof.
  unfold POST, bind, lift, try_catch, ret.
  destruct (req_text w) as [b | e]; [| discriminate].
  destruct (JSON_parse w (or_default b "{}")) as [v | e]; [| discriminate].
  destruct (destructure_text v log) as [[text | e] log1]; [| discriminate].
  destruct (tryBlock w text log1) as [[r' | e] log2] eqn:Ht.
  - intros [= <- <-]. left. by apply (tryBlock_normal w text log1 r' log2).
  - intros [= <- <-]. right. split; [reflexivity | by exists e].
Qed.

End RouteMore.

Section RouteMoreExamples.

Import ScoreDemo.

Lemma POST_empty_body_witness :
  snd (POST (sampleWorld "" (Normal {| choices := [] |})) [])
  = [chatRequest (sampleWorld "" (Normal {| choices := [] |})) ""].
Proof.
  destruct (POST_empty_body (sampleWorld "" (Normal {| choices := [] |})))
    as (_ & Hsent & _); [reflexivity | reflexivity |].
  apply (Hsent tt). reflexivity.
Defined.

End RouteMoreExamples.

(** ** The project page *)

Section PageFacts.

Import ScoreDemo ProjectPage.

(** [handleScore] makes one call, to the scoring route with the draft
    as [text], leaves the draft as it is and always ends with
    [loading] off.  Either the response was read and [data.items]
    evaluated: the scores are set, to an empty array when the items are
    missing or falsy, and no alert is shown; or one of the three steps
    failed: the scores are [null] and the alert is shown. *)
Theorem handleScore_outcome (b : Browser) (st : PageState) :
  let st' := handleScore b st in
  loading st' = false
  /\ text st' = text st
  /\ fetched st' = (fetched st ++ [scoreCall b (text st)])%list
  /\ ((exists res data items,
         fetch b (scoreCall b (text st)) = Normal res
         /\ res_json res = Normal data
         /\ items_of data = Normal items
         /\ scores st' = Some (or_empty_array items)
         /\ alerts st' = alerts st)
      \/ ((forall res data items,
             fetch b (scoreCall b (text st)) = Normal res ->
             res_json res = Normal data -> items_of data <> Normal items)
          /\ scores st' = None
          /\ alerts st' = (alerts st ++ [failedMessage])%list)).
Proof.
  cbv zeta. unfold handleScore, handleScore_try, handleScore_pending.
  cbn [text setScores setLoading called].
  destruct (fetch b (scoreCall b (text st))) as [res | e].
  - destruct (res_json res) as [data | e] eqn:Hj.
    + destruct (items_of data) as [items | e] eqn:Hi.
      * repeat split. left. exists res, data, items. by repeat split.
      * repeat split. right. repeat split.
        intros res' data' items' [= <-] Hj'. rewrite Hj in Hj'.
        injection Hj' as <-. by rewrite Hi.
    + repeat split. right. repeat split.
      intros res' data' items' [= <-] Hj'. rewrite Hj in Hj'. discriminate Hj'.
  - repeat split. right. repeat split. intros res data items H. discriminate H.
Qed.

(** A failure that the route has caught does not reach the user: when
    the page receives the route's answer of status 500, it sets the
    scores to an empty array and shows no alert. *)
Theorem handleScore_route_failure (w : World) (b : Browser) (st : PageState)
    (r : Response) (log : list ChatRequest) :
  POST w [] = (Normal r, log) ->
  status r = 500%nat ->
  fetch b (scoreCall b (text st)) = Normal (received r) ->
  scores (handleScore b st) = Some (JArr [])
  /\ alerts (handleScore b st) = alerts st
  /\ loading (handleScore b st) = false.
Proof.
  intros HP Hs Hf.
  destruct (POST_response w [] r log HP) as [[H200 _] | [_ [e He]]];
    [rewrite Hs in H200; discriminate H200 |].
  unfold handleScore, handleScore_try, handleScore_pending.
  cbn [text setScores setLoading called].
  rewrite Hf. unfold received. cbn [res_json]. rewrite He.
  repeat split.
Qed.

(** What the route answers with status 200 is the parsed content of
    the first choice of the completion, and the page shows its [items]
    as they are: an empty array when they are missing or falsy, and the
    alert when the content was [null]. *)
Theorem handleScore_route_success (w : World) (b : Browser) (st : PageState)
    (r : Response) (log : list ChatRequest) :
  POST w [] = (Normal r, log) ->
  status r = 200%nat ->
  fetch b (scoreCall b (text st)) = Normal (received r) ->
  (exists section c rest,
     create w (chatRequest w section) = Normal {| choices := c :: rest |}
     /\ JSON_parse w (contentOrEmpty (choice_content c)) = Normal (body r))
  /\ (forall items,
        items_of (body r) = Normal items ->
        scores (handleScore b st) = Some (or_empty_array items)
        /\ alerts (handleScore b st) = alerts st)
  /\ (body r = JNull ->
      scores (handleScore b st) = None
      /\ alerts (handleScore b st) = (alerts st ++ [failedMessage])%list).
Proof.
  intros HP Hs Hf.
  destruct (POST_response w [] r log HP) as [[_ Hbody] | [H500 _]];
    [| rewrite Hs in H500; discriminate H500].
  split; [exact Hbody |].
  unfold handleScore, handleScore_try, handleScore_pending.
  cbn [text setScores setLoading called].
  rewrite Hf. unfold received. cbn [res_json].
  split.
  - intros items Hi. by rewrite Hi.
  - intros ->. by cbn.
Qed.

Lemma handleScore_route_success_witness :
  scores (handleScore (answering {| status := 200; body := sampleItems |})
            initialPage)
  = Some (JArr [JObj [("criterion_key", JStr "Approach"); ("score", JNum 4);
                      ("rationale", JStr "Sound")]]).
Proof.
  destruct (handleScore_route_success
              (sampleWorld sampleBody
                 (Normal {| choices := [ {| choice_content := Some sampleContent |} ] |}))
              (answering {| status := 200; body := sampleItems |})
              initialPage
              {| status := 200; body := sampleItems |}
              [chatRequest
                 (sampleWorld sampleBody
                    (Normal {| choices := [ {| choice_content := Some sampleContent |} ] |}))
                 "Background: ..."])
    as (_ & H & _); [reflexivity | reflexivity | reflexivity |].
  destruct (H (Some (JArr [JObj [("criterion_key", JStr "Approach");
                                 ("score", JNum 4);
                                 ("rationale", JStr "Sound")]])) eq_refl)
    as [H1 _].
  exact H1.
Defined.

Lemma handleScore_route_failure_witness :
  scores
    (handleScore
       (answering {| status := 500;
                     body := JObj [("error", JStr "Connection error.");
                                   ("items", JArr [])] |})
       initialPage)
  = Some (JArr [])
  /\ alerts
       (handleScore
          (answering {| status := 500;
                        body := JObj [("error", JStr "Connection error.");
                                      ("items", JArr [])] |})
          initialPage)
     = [].
Proof.
  destruct (handleScore_route_failure
              (sampleWorld sampleBody (Throw {| message := Some "Connection error." |}))
              (answering {| status := 500;
                            body := JObj [("error", JStr "Connection error.");
                                          ("items", JArr [])] |})
              initialPage
              {| status := 500;
                 body := JObj [("error", JStr "Connection error.");
                               ("items", JArr [])] |}
              [chatRequest
                 (sampleWorld sampleBody
                    (Throw {| message := Some "Connection error." |}))
                 "Background: ..."])
    as (H1 & H2 & _); [reflexivity | reflexivity | reflexivity |].
  split; [exact H1 | exact H2].
Defined.

End PageFacts.

(** ** The intake form and the dashboard *)

Section IntakeFacts.

Import ScoreDemo Intake.

Variable JSON_stringify : json -> string.
Variable JSON_parse : string -> completion json.

Lemma intake_after_submit data win :
  JSON_stringify (formJson data) <> "" ->
  intake JSON_parse (Some (onSubmit JSON_stringify data win))
  = JSON_parse (JSON_stringify (formJson data)).
Proof.
  intros Hne. unfold intake, onSubmit, getItem, setItem. cbn [localStorage].
  rewrite lookup_insert_eq. cbn [or_null]. unfold or_default.
  by destruct (String.eqb_spec (JSON_stringify (formJson data)) "").
Qed.

(** When the text written by [JSON.stringify] for the submitted values
    is read back by [JSON.parse] as these values, the dashboard shows
    the project submitted last, whatever was stored before; the submit
    touches no other key of the storage and sends the window to the
    dashboard. *)
Theorem dashboard_shows_last_intake (data : FormValues) (win : Window) :
  JSON_stringify (formJson data) <> "" ->
  JSON_parse (JSON_stringify (formJson data)) = Normal (formJson data) ->
  DashboardPage JSON_parse (Some (onSubmit JSON_stringify data win))
  = Normal (ProjectCard (formJson data))
  /\ (forall earlier,
        DashboardPage JSON_parse
          (Some (onSubmit JSON_stringify data
                   (onSubmit JSON_stringify earlier win)))
        = Normal (ProjectCard (formJson data)))
  /\ (forall key, key <> "lastIntake" ->
        getItem key (onSubmit JSON_stringify data win) = getItem key win)
  /\ location_href (onSubmit JSON_stringify data win) = "/dashboard".
Proof.
  intros Hne Hrt. repeat split.
  - unfold DashboardPage. by rewrite intake_after_submit, Hrt.
  - intros earlier. unfold DashboardPage. by rewrite intake_after_submit, Hrt.
  - intros key Hk. unfold onSubmit, getItem, setItem. cbn [localStorage].
    by apply lookup_insert_ne.
Qed.

(** With nothing stored, or the empty text, the dashboard parses
    ["null"] and shows no project; so it does where there is no
    window.  A stored text that [JSON.parse] rejects makes the page
    throw. *)
Theorem dashboard_without_intake (win : Window) :
  (JSON_parse "null" = Normal JNull ->
   getItem "lastIntake" win = None \/ getItem "lastIntake" win = Some "" ->
   DashboardPage JSON_parse (Some win) = Normal NoProjects)
  /\ DashboardPage JSON_parse None = Normal NoProjects
  /\ (forall stored e,
        getItem "lastIntake" win = Some stored -> stored <> "" ->
        JSON_parse stored = Throw e ->
        DashboardPage JSON_parse (Some win) = Throw e).
Proof.
  repeat split.
  - intros Hnull [H | H]; unfold DashboardPage, intake; rewrite H; cbn [or_null];
      [| unfold or_default; cbn [String.eqb]]; by rewrite Hnull.
  - intros stored e Hs Hne He. unfold DashboardPage, intake. rewrite Hs.
    cbn [or_null]. unfold or_default.
    destruct (String.eqb_spec stored ""); [done |]. by rewrite He.
Qed.

End IntakeFacts.

Section IntakeExamples.

Import ScoreDemo Intake.

Lemma dashboard_shows_last_intake_witness :
  DashboardPage sampleFormParse (Some (onSubmit sampleStringify sampleForm emptyWindow))
  = Normal (ProjectCard (formJson sampleForm)).
Proof.
  apply (dashboard_shows_last_intake sampleStringify sampleFormParse
           sampleForm emptyWindow).
  - discriminate.
  - reflexivity.
Defined.

End IntakeExamples.
